(** * CharaDevice: the serial protocol client of CCOS_CLI

    A shallow embedding of [src/python/serial_interface.py] (class
    [CharaDevice]) together with the properties its specification states
    about the handshake, the command/response engine, the chord codec and
    the line reader.

    Conventions of the embedding.
    - A Python [str] is a [string]; everything the session reads comes from
      [bytes.decode('ascii', errors='ignore')] or from ASCII literals, so
      the characters are ASCII.  Code points above 127 are neither digits
      nor white space here.
    - A Python [int] is a [Z]; [>>] is [Z.shiftr] and [&] is [Z.land], which
      agree with Python on negative numbers (two's complement, arithmetic
      shift).
    - A Python [float] holding a time is a [Q].
    - [print] calls only log and are left out. *)

From Stdlib Require Import ZArith QArith List String Ascii Bool Lia.
From Equations Require Import Equations.
Import ListNotations.

Local Open Scope string_scope.
Local Open Scope Z_scope.

(** ** Python string primitives *)

Module PyStr.

Definition ord (c : ascii) : Z := Z.of_N (N_of_ascii c).

(** [str.isspace] on the ASCII range: TAB, LF, VT, FF, CR, the four
    separators FS..US and the blank. *)
Definition isspace (c : ascii) : bool :=
  let n := ord c in
  ((9 <=? n) && (n <=? 13)) || ((28 <=? n) && (n <=? 31)) || (n =? 32).

Fixpoint lstrip_chars (l : list ascii) : list ascii :=
  match l with
  | c :: r => if isspace c then lstrip_chars r else l
  | [] => []
  end.

Definition strip_chars (l : list ascii) : list ascii :=
  rev (lstrip_chars (rev (lstrip_chars l))).

(** [s.strip()] *)
Definition strip (s : string) : string :=
  string_of_list_ascii (strip_chars (list_ascii_of_string s)).

(** [s.split(sep)] for a one-character separator: every occurrence of
    [sep] cuts, so neighbouring separators give empty tokens and the
    result is never the empty list. *)
Fixpoint split (sep : ascii) (s : string) : list string :=
  match s with
  | EmptyString => [EmptyString]
  | String c r =>
      if Ascii.eqb c sep then EmptyString :: split sep r
      else match split sep r with
           | h :: t => String c h :: t
           | [] => [String c EmptyString]
           end
  end.

(** [sep.join(parts)] *)
Definition join (sep : string) (parts : list string) : string :=
  String.concat sep parts.

(** [s.startswith(p)] *)
Fixpoint startswith (s p : string) {struct p} : bool :=
  match p with
  | EmptyString => true
  | String a p' =>
      match s with
      | EmptyString => false
      | String b s' => Ascii.eqb a b && startswith s' p'
      end
  end.

(** [s.isascii()]: what [s.encode('ascii')] needs in order not to raise. *)
Definition isascii (s : string) : bool :=
  forallb (fun c => ord c <? 128) (list_ascii_of_string s).

(** Truth value of a string and of a list. *)
Definition truthy (s : string) : bool := negb (String.eqb s "").
Definition nonempty {A} (l : list A) : bool :=
  match l with [] => false | _ => true end.

(** [s[i:i+n]] when [i + n <= len(s)] *)
Definition slice (s : string) (i n : nat) : string := String.substring i n s.

End PyStr.

(** ** Python's [int(s)] and [int(s, 16)] on ASCII text

    Follows CPython's [PyLong_FromString]: white space (TAB..CR and blank)
    around the number, one optional sign, for base 16 an optional [0x] or
    [0X] prefix that one underscore may follow, then digits among which
    single underscores may stand, neither first nor last nor doubled.
    [None] stands for [ValueError]. *)

Module PyInt.

(** White space as [int] sees it on ASCII text ([Py_ISSPACE]). *)
Definition isspace (c : ascii) : bool :=
  let n := PyStr.ord c in ((9 <=? n) && (n <=? 13)) || (n =? 32).

Definition digit_value (c : ascii) : option Z :=
  let n := PyStr.ord c in
  if (48 <=? n) && (n <=? 57) then Some (n - 48)
  else if (97 <=? n) && (n <=? 122) then Some (n - 87)
  else if (65 <=? n) && (n <=? 90) then Some (n - 55)
  else None.

Definition digit_below (base : Z) (c : ascii) : option Z :=
  match digit_value c with
  | Some d => if d <? base then Some d else None
  | None => None
  end.

Definition is_underscore (c : ascii) : bool := Ascii.eqb c "_".

Fixpoint skip_space (l : list ascii) : list ascii :=
  match l with
  | c :: r => if isspace c then skip_space r else l
  | [] => []
  end.

(** The digit scan: [prev_us] tells whether the previous character was an
    underscore.  Returns the value read and what is left, or [None] on a
    doubled or trailing underscore. *)
Fixpoint scan_digits (base : Z) (l : list ascii) (prev_us : bool) (acc : Z)
  : option (Z * list ascii) :=
  match l with
  | [] => if prev_us then None else Some (acc, [])
  | c :: r =>
      if is_underscore c then
        if prev_us then None else scan_digits base r true acc
      else
        match digit_below base c with
        | Some d => scan_digits base r false (acc * base + d)
        | None => if prev_us then None else Some (acc, l)
        end
  end.

Definition take_sign (l : list ascii) : Z * list ascii :=
  match l with
  | "+"%char :: r => (1, r)
  | "-"%char :: r => (-1, r)
  | _ => (1, l)
  end.

Definition take_prefix (base : Z) (l : list ascii) : list ascii :=
  if base =? 16 then
    match l with
    | "0"%char :: x :: r =>
        if Ascii.eqb x "x" || Ascii.eqb x "X" then
          match r with
          | "_"%char :: r' => r'
          | _ => r
          end
        else l
    | _ => l
    end
  else l.

Definition parse (base : Z) (s : string) : option Z :=
  let l := skip_space (list_ascii_of_string s) in
  let '(sign, l) := take_sign l in
  let l := take_prefix base l in
  match l with
  | "_"%char :: _ => None
  | _ =>
      match scan_digits base l false 0 with
      | None => None
      | Some (v, rest) =>
          if Nat.eqb (List.length rest) (List.length l) then None
          else match skip_space rest with
               | [] => Some (sign * v)
               | _ :: _ => None
               end
      end
  end.

(** [int(s)] *)
Definition int (s : string) : option Z := parse 10 s.
(** [int(s, 16)] *)
Definition int16 (s : string) : option Z := parse 16 s.

(** [f"{n:X}"]: upper-case hexadecimal, a minus sign for negatives. *)
Definition hex_digit (d : Z) : ascii :=
  nth (Z.to_nat d)
    ["0"; "1"; "2"; "3"; "4"; "5"; "6"; "7"; "8"; "9";
     "A"; "B"; "C"; "D"; "E"; "F"]%char "0"%char.

(** Digits of [n] in [base], least significant first. *)
Fixpoint le_digits (base : Z) (fuel : nat) (n : Z) : list Z :=
  match fuel with
  | O => []
  | S f =>
      (n mod base) :: (if n / base =? 0 then [] else le_digits base f (n / base))
  end.

Definition digits_of_nonneg (base : Z) (n : Z) : string :=
  string_of_list_ascii
    (rev (map hex_digit (le_digits base (S (Z.to_nat (Z.log2 n))) n))).

Definition hex_of_nonneg (n : Z) : string := digits_of_nonneg 16 n.

Definition format_X (n : Z) : string :=
  if n <? 0 then String "-" (hex_of_nonneg (- n)) else hex_of_nonneg n.

(** [str(n)] *)
Definition str (n : Z) : string :=
  if n <? 0 then String "-" (digits_of_nonneg 10 (- n)) else digits_of_nonneg 10 n.

End PyInt.

(** ** The serial port as the session sees it

    The polling loop of [_read_line] looks at the clock and at the port
    once per turn.  A [tick] is one such look: the clock reading and what
    the port shows.  The list of ticks still to come is the environment;
    once it is exhausted the line stays silent and every later deadline
    passes.  A [Fault] is a port that raises on use (closed or unplugged);
    it is not consumed, so the port stays dead. *)

Inductive poll : Type :=
| Idle                (* in_waiting == 0 *)
| Byte (b : ascii)    (* in_waiting > 0 and read(1) gives b *)
| Fault.              (* the port raises SerialException *)

Record tick : Type := { now : Q; port : poll }.

Record Serial : Type := {
  written : list string;     (* what write() has sent, oldest first *)
  incoming : list tick;
  timeout : option Q         (* serial.timeout; None blocks *)
}.

Record CharaDevice : Type := {
  serial : Serial;
  version : option string;
  company : option string;
  device : option string;
  chipset : option string;
  key_count : option Z;
  layer_count : Z;
  profile_count : Z
}.

Inductive exn : Type :=
| SerialException        (* the port failed *)
| IndexError             (* a list was indexed out of range *)
| UnicodeEncodeError     (* str.encode('ascii') met a character above 127 *)
| ValueError.            (* the port refused a negative timeout *)

Inductive result (A : Type) : Type :=
| Ok (a : A)
| Raised (e : exn).
Arguments Ok {A} a.
Arguments Raised {A} e.

(** A method of the class: it may raise and it may change [self]. *)
Definition M (A : Type) : Type := CharaDevice -> result A * CharaDevice.

Definition ret {A} (a : A) : M A := fun self => (Ok a, self).
Definition raise {A} (e : exn) : M A := fun self => (Raised e, self).
Definition bind {A B} (m : M A) (k : A -> M B) : M B :=
  fun self =>
    match m self with
    | (Ok a, self') => k a self'
    | (Raised e, self') => (Raised e, self')
    end.

Notation "x <- m ;; k" := (bind m (fun x => k))
  (at level 61, m at next level, right associativity).
Notation "m ;;; k" := (bind m (fun _ => k))
  (at level 61, right associativity).

Definition with_serial (f : Serial -> Serial) (self : CharaDevice) : CharaDevice :=
  {| serial := f (serial self); version := version self; company := company self;
     device := device self; chipset := chipset self; key_count := key_count self;
     layer_count := layer_count self; profile_count := profile_count self |}.

Definition set_incoming (tr : list tick) (s : Serial) : Serial :=
  {| written := written s; incoming := tr; timeout := timeout s |}.
Definition set_timeout (t : option Q) (s : Serial) : Serial :=
  {| written := written s; incoming := incoming s; timeout := t |}.
Definition add_written (cmd : string) (s : Serial) : Serial :=
  {| written := written s ++ [cmd]; incoming := incoming s; timeout := timeout s |}.

Definition set_version (v : string) (self : CharaDevice) : CharaDevice :=
  {| serial := serial self; version := Some v; company := company self;
     device := device self; chipset := chipset self; key_count := key_count self;
     layer_count := layer_count self; profile_count := profile_count self |}.

Definition LF : ascii := "010"%char.
Definition CR : ascii := "013"%char.
Definition CRLF : string := String CR (String LF "").

Definition Qltb (x y : Q) : bool := negb (Qle_bool y x).

(** [CharaDevice.__init__]: the port is open, nothing written, the read
    timeout is 2 seconds and the capability fields hold their defaults. *)
Definition __init__ (tr : list tick) : CharaDevice :=
  {| serial := {| written := []; incoming := tr; timeout := Some 2%Q |};
     version := None; company := None; device := None; chipset := None;
     key_count := None; layer_count := 3; profile_count := 1 |}.

(** [_send_raw]: [cmd.encode('ascii')] raises on a character above 127
    before anything is written. *)
Definition _send_raw (command : string) : M unit := fun self =>
  let cmd := command ++ CRLF in
  if negb (PyStr.isascii cmd) then (Raised UnicodeEncodeError, self)
  else
    match incoming (serial self) with
    | {| port := Fault |} :: _ => (Raised SerialException, self)
    | _ => (Ok tt, with_serial (add_written cmd) self)
    end.

(** [bytes.decode('ascii', errors='ignore')] *)
Definition decode_ascii_ignore (buffer : list ascii) : string :=
  string_of_list_ascii (filter (fun c => PyStr.ord c <? 128) buffer).

(** The [while] loop of [_read_line].  [start] is [start_time], [buffer]
    the bytes gathered so far.  The result comes with the ticks left. *)
Fixpoint read_loop (timeout start : Q) (trace : list tick) (buffer : list ascii)
  : result (option string) * list tick :=
  match trace with
  | [] => (Ok None, [])
  | t :: rest =>
      if Qltb (now t - start) timeout then
        match port t with
        | Fault => (Raised SerialException, trace)
        | Idle => read_loop timeout start rest buffer
        | Byte char =>
            if Ascii.eqb char LF then
              let line := PyStr.strip (decode_ascii_ignore buffer) in
              if PyStr.truthy line then (Ok (Some line), rest)
              else read_loop timeout start rest buffer
            else if Ascii.eqb char CR then read_loop timeout start rest buffer
            else read_loop timeout start rest (buffer ++ [char])
        end
      else (Ok None, trace)
  end.

(** [_read_line]: the clock is read once for [start_time], at the first
    tick. *)
Definition _read_line (timeout : Q) : M (option string) := fun self =>
  let trace := incoming (serial self) in
  let start_time := match trace with t :: _ => now t | [] => 0%Q end in
  let '(r, trace') := read_loop timeout start_time trace [] in
  (r, with_serial (set_incoming trace') self).

(** [l[i]], raising [IndexError] out of range. *)
Definition index (l : list string) (i : nat) : M string :=
  match nth_error l i with
  | Some x => ret x
  | None => raise IndexError
  end.

(** The part of [send_command] after the reply line has arrived. *)
Definition parse_response (command_parts : list string) (response : string)
  : M (list string) :=
  let parts := PyStr.split " " response in
  p0 <- index parts 0 ;;
  c0 <- index command_parts 0 ;;
  if (1 <=? List.length parts)%nat && String.eqb p0 c0 then
    if (1 <? List.length command_parts)%nat && (1 <? List.length parts)%nat then
      p1 <- index parts 1 ;;
      c1 <- index command_parts 1 ;;
      if String.eqb p1 c1 then
        ret (if (2 <? List.length parts)%nat then skipn 2 parts else [])
      else ret []
    else
      ret (if (1 <? List.length parts)%nat then skipn 1 parts else [])
  else if PyStr.startswith response "UKN" then ret []
  else ret [].

(** [send_command] *)
Definition send_command (command_parts : list string) (timeout : Q)
  : M (list string) :=
  let command := PyStr.join " " command_parts in
  _send_raw command ;;;
  response <- _read_line timeout ;;
  match response with
  | None => ret []
  | Some response => parse_response command_parts response
  end.

Definition modify (f : CharaDevice -> CharaDevice) : M unit :=
  fun self => (Ok tt, f self).

(** ** Capability resolver *)

Definition key_counts : list (string * Z) :=
  [("ONE", 90); ("TWO", 90); ("LITE", 67); ("X", 256); ("ENGINE", 256);
   ("M4G", 90); ("M4GR", 90); ("T4G", 7); ("ZERO", 256)].

(** [d.get(k, default)] *)
Fixpoint dict_get (d : list (string * Z)) (k : string) (default : Z) : Z :=
  match d with
  | [] => default
  | (k', v) :: d' => if String.eqb k k' then v else dict_get d' k default
  end.

(** [int(parts[i]) if i < len(parts) else 0]; [None] is [ValueError]. *)
Definition component (parts : list string) (i : nat) : option Z :=
  match nth_error parts i with
  | Some s => PyInt.int s
  | None => Some 0
  end.

(** The [for i in range(3)] loop of [_version_gte]; [None] is an exception
    on the way. *)
Fixpoint gte_loop (current target : list string) (range : list nat) : option bool :=
  match range with
  | [] => Some true
  | i :: range' =>
      match component current i with
      | None => None
      | Some c =>
          match component target i with
          | None => None
          | Some t =>
              if c >? t then Some true
              else if c <? t then Some false
              else gte_loop current target range'
          end
      end
  end.

Definition numeric_prefix (v : string) : list string :=
  PyStr.split "." (hd "" (PyStr.split "-" v)).

(** The comparator on two version strings. *)
Definition version_gte (current_version target_version : string) : bool :=
  let current := numeric_prefix current_version in
  let target := numeric_prefix target_version in
  match gte_loop current target (seq 0 3) with
  | Some b => b
  | None => false
  end.

(** [_version_gte]: [self.version] may be [None], whose [split] raises
    inside the [try]. *)
Definition _version_gte (self : CharaDevice) (target_version : string) : bool :=
  match version self with
  | None => false
  | Some v => version_gte v target_version
  end.

Definition version_truthy (self : CharaDevice) : bool :=
  match version self with
  | None => false
  | Some v => PyStr.truthy v
  end.

(** The assignments of [init] under the test on [id_response]. *)
Definition set_identity (c d ch : string) (self : CharaDevice) : CharaDevice :=
  let profile_count' :=
    if version_truthy self && _version_gte self "2.2.0-beta.4"
    then (if String.eqb ch "M0" then 2 else 3) else profile_count self in
  let layer_count' :=
    if version_truthy self && _version_gte self "2.2.0-beta.20"
    then (if String.eqb ch "M0" then 3 else 4) else layer_count self in
  {| serial := serial self; version := version self;
     company := Some c; device := Some d; chipset := Some ch;
     key_count := Some (dict_get key_counts d 90);
     layer_count := layer_count'; profile_count := profile_count' |}.

Definition init_body : M bool :=
  version_response <- send_command ["VERSION"] 2%Q ;;
  (if PyStr.nonempty version_response
   then modify (set_version (PyStr.join " " version_response))
   else ret tt) ;;;
  id_response <- send_command ["ID"] 2%Q ;;
  (if PyStr.nonempty id_response && (3 <=? List.length id_response)%nat then
     match id_response with
     | c :: d :: ch :: _ => modify (set_identity c d ch)
     | _ => ret tt
     end
   else ret tt) ;;;
  ret true.

(** [init]: the [try] turns every exception into [False]. *)
Definition init : M bool := fun self =>
  match init_body self with
  | (Ok b, self') => (Ok b, self')
  | (Raised _, self') => (Ok false, self')
  end.

(** ** Query facade *)

(** [get_chord_count] *)
Definition get_chord_count : M Z :=
  response <- send_command ["CML"; "C0"] 2%Q ;;
  match response with
  | r0 :: _ => match PyInt.int r0 with Some n => ret n | None => ret 0 end
  | [] => ret 0
  end.

(** [get_ram_bytes_available] *)
Definition get_ram_bytes_available : M (option Z) :=
  response <- send_command ["RAM"] 2%Q ;;
  match response with
  | r0 :: _ => if negb (String.eqb r0 "UKN") then ret (PyInt.int r0) else ret None
  | [] => ret None
  end.

(** [get_setting] *)
Definition get_setting (profile setting_id : Z) : M (option Z) :=
  let full_id := setting_id + profile * 256 in
  response <- send_command ["VAR"; "B1"; PyInt.format_X full_id] 2%Q ;;
  if PyStr.nonempty response && (2 <=? List.length response)%nat then
    match response with
    | value :: status :: _ =>
        if String.eqb status "0" then ret (PyInt.int value) else ret None
    | _ => ret None
    end
  else ret None.

(** ** Chord codec *)

(** [range(n)] *)
Definition range (n : nat) : list Z := map Z.of_nat (seq 0 n).

(** [_parse_chord_actions] *)
Definition _parse_chord_actions (hex_str : string) : list Z :=
  match PyInt.int16 hex_str with
  | None => []
  | Some value =>
      let actions :=
        fold_left
          (fun actions i =>
             let action := Z.land (Z.shiftr value (i * 10)) 1023 in
             if negb (action =? 0) then (actions ++ [action])%list else actions)
          (range 12) [] in
      rev actions
  end.

(** The [for length in [4, 3, 2]] loop of [_parse_phrase] at position [i]:
    the value and width it accepts, or [None] when it runs into its
    [else]. *)
Fixpoint try_lengths (hex_str : string) (i : nat) (lengths : list nat)
  : option (Z * nat) :=
  match lengths with
  | [] => None
  | length :: lengths' =>
      if (i + length <=? String.length hex_str)%nat then
        match PyInt.int16 (PyStr.slice hex_str i length) with
        | Some val => Some (val, length)
        | None => try_lengths hex_str i lengths'
        end
      else try_lengths hex_str i lengths'
  end.

Definition phrase_lengths : list nat := [4; 3; 2]%nat.

Definition inspect {A} (a : A) : {b : A | a = b} := exist _ a eq_refl.

(** The [while i < len(hex_str)] loop of [_parse_phrase]. *)
Equations? parse_phrase_loop (hex_str : string) (i : nat) (phrase : list Z)
  : list Z by wf (String.length hex_str - i)%nat lt :=
  parse_phrase_loop hex_str i phrase with lt_dec i (String.length hex_str) => {
    | left _ with inspect (try_lengths hex_str i phrase_lengths) => {
        | exist _ (Some (val, length)) _ =>
            parse_phrase_loop hex_str (i + length) (phrase ++ [val])%list;
        | exist _ None _ =>
            parse_phrase_loop hex_str (i + 1) phrase };
    | right _ => phrase }.
Proof.
  - unfold phrase_lengths in e; simpl in e.
    repeat match type of e with
           | (if ?c then _ else _) = _ => destruct c
           | match ?o with _ => _ end = _ => destruct o
           end;
      try discriminate; injection e as _ <-; lia.
  - lia.
Qed.

(** [_parse_phrase] *)
Definition _parse_phrase (hex_str : string) : list Z :=
  parse_phrase_loop hex_str 0 [].

(** A chord as [get_chord] returns it. *)
Record Chord : Type := {
  chord_index : Z;
  actions_hex : string;
  actions : list Z;
  phrase_hex : string;
  phrase : list Z
}.

(** [get_chord] *)
Definition get_chord (index : Z) : M Chord :=
  response <- send_command ["CML"; "C1"; PyInt.str index] 2%Q ;;
  if PyStr.nonempty response && (2 <=? List.length response)%nat then
    match response with
    | a_hex :: p_hex :: more =>
        let p_hex := fold_left String.append more p_hex in
        ret {| chord_index := index; actions_hex := a_hex;
               actions := _parse_chord_actions a_hex;
               phrase_hex := p_hex; phrase := _parse_phrase p_hex |}
    | _ => ret {| chord_index := index; actions_hex := ""; actions := [];
                  phrase_hex := ""; phrase := [] |}
    end
  else ret {| chord_index := index; actions_hex := ""; actions := [];
              phrase_hex := ""; phrase := [] |}.

(** [timeout if timeout else 10.0]: [None] and [0.0] are both false. *)
Definition read_bound (timeout : option Q) : Q :=
  match timeout with
  | Some t => if Qeq_bool t 0 then 10%Q else t
  | None => 10%Q
  end.

(** [self.serial.timeout = timeout]: the port's setter refuses a negative
    number with [ValueError] and stores nothing then. *)
Definition assign_timeout (timeout : option Q) : M unit :=
  match timeout with
  | Some t =>
      if Qltb t 0 then raise ValueError
      else modify (with_serial (set_timeout (Some t)))
  | None => modify (with_serial (set_timeout None))
  end.

(** The [try] block of [query_key]. *)
Definition query_key_body (timeout : option Q) : M (option Z) :=
  assign_timeout timeout ;;;
  _send_raw "QRY KEY" ;;;
  response <- _read_line (read_bound timeout) ;;
  match response with
  | Some response =>
      if PyStr.truthy response then
        match PyStr.split " " response with
        | p0 :: p1 :: p2 :: _ =>
            if String.eqb p0 "QRY" && String.eqb p1 "KEY" then ret (PyInt.int p2)
            else ret None
        | _ => ret None
        end
      else ret None
  | None => ret None
  end.

(** [query_key]: the [finally] resets the port's timeout on every path. *)
Definition query_key (timeout : option Q) : M (option Z) := fun self =>
  let '(r, self') := query_key_body timeout self in
  (r, with_serial (set_timeout (Some 2%Q)) self').

(** [close]: nothing more arrives. *)
Definition close : M unit := modify (with_serial (set_incoming [])).

(** ** Reference definitions that follow the specification's wording *)

(** Modelled from the spec: the symmetric encoder of the chord action word,
    which the repository does not have (it only decodes).  Each code takes a
    10-bit field; the fields are laid down from the least significant bits
    in reverse program order; the word is rendered in hexadecimal. *)
Fixpoint pack_fields (fields : list Z) : Z :=
  match fields with
  | [] => 0
  | a :: rest => Z.lor a (Z.shiftl (pack_fields rest) 10)
  end.

Definition encode_actions (actions : list Z) : string :=
  PyInt.format_X (pack_fields (rev actions)).

(** The i-th 10-bit field of a word, counted from the least significant
    bits. *)
Definition field (value : Z) (i : Z) : Z := Z.land (Z.shiftr value (i * 10)) 1023.

(** The decoder as the specification words it: the twelve fields, the
    nonzero ones kept, reversed. *)
Definition nonzero (a : Z) : bool := negb (a =? 0).

Definition decode_actions_spec (value : Z) : list Z :=
  rev (filter nonzero (map (field value) (range 12))).

(** A string of hexadecimal digits and its value as an unsigned number. *)
Definition is_hex_digit (c : ascii) : bool :=
  match PyInt.digit_below 16 c with Some _ => true | None => false end.

Definition hex_string (s : string) : bool :=
  forallb is_hex_digit (list_ascii_of_string s).

Definition hex_step (acc : Z) (c : ascii) : Z :=
  acc * 16 + match PyInt.digit_value c with Some d => d | None => 0 end.

Definition hex_value_chars (l : list ascii) : Z := fold_left hex_step l 0.

(** The number a list of base-16 digits stands for, least significant
    first. *)
Fixpoint le_value (ds : list Z) : Z :=
  match ds with
  | [] => 0
  | d :: rest => d + 16 * le_value rest
  end.

Definition hex_value (s : string) : Z := hex_value_chars (list_ascii_of_string s).

(** The token the phrase decoder accepts at position [i], as the
    specification words it: the first of the widths 4, 3, 2 that fits and
    parses. *)
Definition candidate (hex_str : string) (i length : nat) : option (Z * nat) :=
  if (i + length <=? String.length hex_str)%nat then
    match PyInt.int16 (PyStr.slice hex_str i length) with
    | Some val => Some (val, length)
    | None => None
    end
  else None.

Definition first_valid_token (hex_str : string) (i : nat) : option (Z * nat) :=
  match candidate hex_str i 4 with
  | Some t => Some t
  | None =>
      match candidate hex_str i 3 with
      | Some t => Some t
      | None => candidate hex_str i 2
      end
  end.

(** The comparator as the specification words it: three components, the
    missing ones 0, compared left to right. *)
Definition lex_gte (c t : Z * Z * Z) : bool :=
  let '(c0, c1, c2) := c in
  let '(t0, t1, t2) := t in
  if c0 >? t0 then true else if c0 <? t0 then false
  else if c1 >? t1 then true else if c1 <? t1 then false
  else c2 >=? t2.

(** ** Traces for examples *)

(** The bytes of [s], all seen at clock reading [t]. *)
Definition arrive (t : Q) (s : string) : list tick :=
  map (fun c => {| now := t; port := Byte c |}) (list_ascii_of_string s).

(** A silent port looked at when the clock reads [t]. *)
Definition idle (t : Q) : tick := {| now := t; port := Idle |}.

(** The capability fields at their pre-handshake defaults. *)
Definition capabilities_unset (self : CharaDevice) : Prop :=
  version self = None /\ company self = None /\ device self = None /\
  chipset self = None /\ key_count self = None /\
  layer_count self = 3 /\ profile_count self = 1.


(** ** The session over its lifetime *)

(** The capability fields of a session. *)
Definition caps (self : CharaDevice)
  : option string * option string * option string * option string
    * option Z * Z * Z :=
  (version self, company self, device self, chipset self,
   key_count self, layer_count self, profile_count self).

(** The fields the ID step of the handshake writes. *)
Definition identity (self : CharaDevice)
  : option string * option string * option string * option Z * Z * Z :=
  (company self, device self, chipset self,
   key_count self, layer_count self, profile_count self).

(** The session after the first and after the second conditional of
    [init], given what the step before returned. *)
Definition after_version (version_response : list string) (self : CharaDevice)
  : CharaDevice :=
  if PyStr.nonempty version_response
  then set_version (PyStr.join " " version_response) self
  else self.

Definition after_id (id_response : list string) (self : CharaDevice) : CharaDevice :=
  match id_response with
  | c :: d :: ch :: _ => set_identity c d ch self
  | _ => self
  end.

(** Every capability field set. *)
Definition capabilities_set (self : CharaDevice) : Prop :=
  version self <> None /\ company self <> None /\ device self <> None /\
  chipset self <> None /\ key_count self <> None.

(** The calls a client can make on a session. *)
Inductive call : Type :=
| Call_init
| Call_send_command (command_parts : list string) (timeout : Q)
| Call_get_chord_count
| Call_get_ram_bytes_available
| Call_get_setting (profile setting_id : Z)
| Call_get_chord (index : Z)
| Call_query_key (timeout : option Q)
| Call_close.

Definition run (c : call) (self : CharaDevice) : CharaDevice :=
  match c with
  | Call_init => snd (init self)
  | Call_send_command command_parts timeout =>
      snd (send_command command_parts timeout self)
  | Call_get_chord_count => snd (get_chord_count self)
  | Call_get_ram_bytes_available => snd (get_ram_bytes_available self)
  | Call_get_setting profile setting_id => snd (get_setting profile setting_id self)
  | Call_get_chord index => snd (get_chord index self)
  | Call_query_key timeout => snd (query_key timeout self)
  | Call_close => snd (close self)
  end.

(** The sessions that can exist: a fresh one, one whose wire has carried
    anything at all in the meantime, one after a call. *)
Inductive reachable : CharaDevice -> Prop :=
| reach_open (trace : list tick) : reachable (__init__ trace)
| reach_wire (self : CharaDevice) (trace : list tick) :
    reachable self -> reachable (with_serial (set_incoming trace) self)
| reach_call (self : CharaDevice) (c : call) :
    reachable self -> reachable (run c self).

(** The identity group is written as a whole. *)
Definition identity_atomic (self : CharaDevice) : Prop :=
  (company self = None /\ device self = None /\ chipset self = None /\
   key_count self = None /\ layer_count self = 3 /\ profile_count self = 1)
  \/
  (exists c d ch,
      company self = Some c /\ device self = Some d /\ chipset self = Some ch /\
      key_count self = Some (dict_get key_counts d 90) /\
      (layer_count self = 3 \/ layer_count self = 4) /\
      (profile_count self = 1 \/ profile_count self = 2 \/ profile_count self = 3)).

(** A bare CR LF waiting at the head of the wire. *)
Definition blank_line_at (t : tick) : list tick :=
  [ {| now := now t; port := Byte CR |}; {| now := now t; port := Byte LF |} ].

(** What [parse_response] returns once the command has a first part. *)
Definition echoed_payload (c0 : string) (cs : list string) (parts : list string)
  : list string :=
  match parts with
  | [] => []
  | p0 :: ps =>
      if String.eqb p0 c0 then
        match cs, ps with
        | c1 :: _, p1 :: rest => if String.eqb p1 c1 then rest else []
        | _, _ => ps
        end
      else []
  end.

(** A method that leaves the capability fields as they are. *)
Definition preserves_caps {A} (m : M A) : Prop :=
  forall self, caps (snd (m self)) = caps self.

(** What holds of the capability fields throughout a session's life. *)
Definition capability_invariant (self : CharaDevice) : Prop :=
  identity_atomic self
  /\ (version self = None -> layer_count self = 3 /\ profile_count self = 1).

(** A look at the port that shows a white-space byte (a blank, a tab, a
    CR, an LF, ...) at the clock reading of [t]. *)
Definition blank_tick (t b : tick) : Prop :=
  now b = now t /\ exists c, port b = Byte c /\ PyStr.isspace c = true.

(** ** Notions used by the further properties *)

(** A look at the port that does not raise. *)
Definition sound (t : tick) : Prop := port t <> Fault.

(** A look at the port that neither raises nor shows a line feed. *)
Definition no_line_feed (t : tick) : Prop := port t <> Fault /\ port t <> Byte LF.

(** A character a returned line may hold: 7-bit, neither CR nor LF. *)
Definition line_char (c : ascii) : Prop := PyStr.ord c < 128 /\ c <> CR /\ c <> LF.

(** A method whose only exception is the transport's. *)
Definition only_serial {A} (m : M A) : Prop :=
  forall self e, fst (m self) = Raised e -> e = SerialException.

(** A token without a blank in it. *)
Definition no_blank (s : string) : Prop :=
  forall c, In c (list_ascii_of_string s) -> c <> " "%char.

(** A version whose first three components, missing ones counted as 0, are
    all numeric. *)
Definition well_formed_version (v : string) : Prop :=
  forall i, (i < 3)%nat -> component (numeric_prefix v) i <> None.

(** The three numbers the comparator reads off a version. *)
Definition version_triple (v : string) : Z * Z * Z :=
  let part i := match component (numeric_prefix v) i with
                | Some n => n
                | None => 0
                end in
  (part 0%nat, part 1%nat, part 2%nat).

(** What the phrase decoder reads off a run of hexadecimal digits: groups
    of four, a last group of three or two, a single digit left over
    dropped. *)
Fixpoint hex_groups (l : list ascii) : list Z :=
  match l with
  | a :: b :: c :: d :: rest => hex_value_chars [a; b; c; d] :: hex_groups rest
  | [a; b; c] => [hex_value_chars [a; b; c]]
  | [a; b] => [hex_value_chars [a; b]]
  | _ => []
  end.

(** * print_layout.py: a layer of key codes as a grid of action names

    The layout JSON is taken as read: [layout_data.get("layout", [])] is an
    optional list of layers, each a flat list of integer codes; the action
    map is a dictionary from code strings to names.  [print] calls that
    only warn are left out; what [print_layer_grid] prints is modelled as
    the list of its lines. *)

Module Layout.

(** [l[i]] with Python's negative indices; [None] is [IndexError]. *)
Definition py_index {A} (l : list A) (i : Z) : option A :=
  let n := Z.of_nat (List.length l) in
  if 0 <=? i then nth_error l (Z.to_nat i)
  else if 0 <=? n + i then nth_error l (Z.to_nat (n + i))
  else None.

(** A slice bound brought into [0, n], a negative one counted from the
    end. *)
Definition clamp (n i : Z) : Z :=
  if i <? 0 then Z.max (i + n) 0 else Z.min i n.

(** [l[a:b]] *)
Definition py_slice {A} (l : list A) (a b : Z) : list A :=
  let n := Z.of_nat (List.length l) in
  firstn (Z.to_nat (clamp n b - clamp n a)) (skipn (Z.to_nat (clamp n a)) l).

(** [k in d] and [d[k]] *)
Fixpoint dict_lookup (d : list (string * string)) (k : string) : option string :=
  match d with
  | [] => None
  | (k', v) :: d' => if String.eqb k k' then Some v else dict_lookup d' k
  end.

(** The body of the loop over the codes of a row. *)
Definition action_name (action_map : list (string * string)) (code : Z) : string :=
  if code =? 0 then "EMPTY"
  else
    let code_str := PyInt.str code in
    match dict_lookup action_map code_str with
    | Some name => name
    | None => "UNKNOWN_" ++ code_str
    end.

Definition row_names (action_map : list (string * string)) (row_codes : list Z)
  : list string :=
  map (action_name action_map) row_codes.

(** The number of rows [convert_layer_to_names] settles on. *)
Definition detect_rows (total_keys : Z) : Z :=
  if negb (total_keys mod 6 =? 0) then
    match find (fun test_rows => total_keys mod test_rows =? 0) [4; 5; 6; 7] with
    | Some test_rows => test_rows
    | None => 6
    end
  else 6.

(** The layer the two converters work on: [Ok None] stands for the early
    [return []]. *)
Definition select_layer (layout : option (list (list Z))) (layer_index : Z)
  : result (option (list Z)) :=
  let layout_array := match layout with Some a => a | None => [] end in
  if negb (PyStr.nonempty layout_array) then Ok None
  else if layer_index >=? Z.of_nat (List.length layout_array) then Ok None
  else match py_index layout_array layer_index with
       | Some layer_codes => Ok (Some layer_codes)
       | None => Raised IndexError
       end.

(** [convert_layer_to_names] *)
Definition convert_layer_to_names (layout : option (list (list Z)))
    (action_map : list (string * string)) (layer_index : Z)
  : result (list (list string)) :=
  match select_layer layout layer_index with
  | Raised e => Raised e
  | Ok None => Ok []
  | Ok (Some layer_codes) =>
      let total_keys := Z.of_nat (List.length layer_codes) in
      let rows := detect_rows total_keys in
      let cols := total_keys / rows in
      Ok (map (fun row =>
                 let start_idx := row * cols in
                 let end_idx := start_idx + cols in
                 row_names action_map (py_slice layer_codes start_idx end_idx))
              (range (Z.to_nat rows)))
  end.

(** Truth value of an optional dimension: [None] and 0 are false. *)
Definition given (d : option Z) : bool :=
  match d with
  | Some z => negb (z =? 0)
  | None => false
  end.

Definition dim (d : option Z) : Z :=
  match d with
  | Some z => z
  | None => 0
  end.

Definition possible_dims : list (Z * Z) :=
  [(6, 15); (5, 18); (5, 15); (6, 17); (4, 12); (5, 12); (4, 14)].

(** The [if rows and cols / elif rows / elif cols / else] of
    [convert_layer_to_names_with_dims]. *)
Definition resolve_dims (total_keys : Z) (rows cols : option Z) : Z * Z :=
  if given rows && given cols then (dim rows, dim cols)
  else if given rows then
    (dim rows,
     if negb (total_keys mod dim rows =? 0) then total_keys / dim rows + 1
     else total_keys / dim rows)
  else if given cols then
    (if negb (total_keys mod dim cols =? 0) then total_keys / dim cols + 1
     else total_keys / dim cols,
     dim cols)
  else
    match find (fun d => fst d * snd d =? total_keys) possible_dims with
    | Some (test_rows, test_cols) => (test_rows, test_cols)
    | None =>
        (6, if total_keys mod 6 =? 0 then total_keys / 6 else total_keys / 6 + 1)
    end.

(** The codes of one row, padded with 0 up to [cols]. *)
Definition row_codes_at (layer_codes : list Z) (cols row : Z) : list Z :=
  let total_keys := Z.of_nat (List.length layer_codes) in
  let start_idx := row * cols in
  let end_idx := Z.min (start_idx + cols) total_keys in
  let row_codes := py_slice layer_codes start_idx end_idx in
  if Z.of_nat (List.length row_codes) <? cols
  then (row_codes ++ repeat 0 (Z.to_nat (cols - Z.of_nat (List.length row_codes))))%list
  else row_codes.

(** [convert_layer_to_names_with_dims] *)
Definition convert_layer_to_names_with_dims (layout : option (list (list Z)))
    (action_map : list (string * string)) (layer_index : Z) (rows cols : option Z)
  : result (list (list string)) :=
  match select_layer layout layer_index with
  | Raised e => Raised e
  | Ok None => Ok []
  | Ok (Some layer_codes) =>
      let total_keys := Z.of_nat (List.length layer_codes) in
      let '(rows, cols) := resolve_dims total_keys rows cols in
      Ok (map (fun row => row_names action_map (row_codes_at layer_codes cols row))
              (range (Z.to_nat rows)))
  end.

(** [s.ljust(n)] *)
Definition ljust (n : nat) (s : string) : string :=
  s ++ string_of_list_ascii (repeat " "%char (n - String.length s)).

(** The cell [print_layer_grid] prints for a name. *)
Definition display_name (name : string) : string :=
  if (12 <? String.length name)%nat then String.substring 0 10 name ++ ".."
  else ljust 12 name.

(** One printed row. *)
Definition row_line (row_idx : Z) (row : list string) : string :=
  "Row " ++ PyInt.str row_idx ++ ": "
  ++ String.concat "" (map (fun name => display_name name ++ " ") row).

(** [print_layer_grid]: the lines it prints. *)
Definition print_layer_grid (grid : list (list string)) (layer_index : Z)
  : list string :=
  let rule := string_of_list_ascii (repeat "="%char 80) in
  let title := "Layer " ++ PyInt.str layer_index ++ ":" in
  List.app [""; title; rule]
    (List.app (map (fun '(row_idx, row) => row_line row_idx row)
                 (combine (range (List.length grid)) grid))
       [rule]).

End Layout.
(** * Sanity checks of the primitives *)

Example split_ex1 : PyStr.split " " "a  b" = ["a"; ""; "b"].
Proof. reflexivity. Qed.
Example split_ex2 : PyStr.split " " "" = [""].
Proof. reflexivity. Qed.
Example strip_ex : PyStr.strip "  ab c  " = "ab c".
Proof. reflexivity. Qed.
Example int_ex1 : PyInt.int " +1_000 " = Some 1000.
Proof. reflexivity. Qed.
Example int_ex2 : PyInt.int "1__0" = None /\ PyInt.int "" = None /\ PyInt.int "_1" = None
                  /\ PyInt.int "1_" = None /\ PyInt.int "12a" = None.
Proof. repeat split; reflexivity. Qed.
Example int16_ex : PyInt.int16 "0x_1f" = Some 31 /\ PyInt.int16 "-1" = Some (-1)
                   /\ PyInt.int16 "0x" = None /\ PyInt.int16 "fF" = Some 255.
Proof. repeat split; reflexivity. Qed.
Example format_ex : PyInt.format_X 16 = "10" /\ PyInt.format_X 0 = "0"
                    /\ PyInt.format_X 255 = "FF" /\ PyInt.format_X (-26) = "-1A".
Proof. repeat split; reflexivity. Qed.
Example phrase_ex : _parse_phrase "0041006200" = [65; 98; 0].
Proof. reflexivity. Qed.
Example actions_ex : _parse_chord_actions "F00" = [3; 768].
Proof. reflexivity. Qed.
Example encode_ex : encode_actions [3; 768] = "F00".
Proof. reflexivity. Qed.
Example layout_ex1 :
  Layout.convert_layer_to_names (Some [[1; 2; 0; 4; 5; 6; 7; 8]]) [("1", "A"); ("4", "D")] 0
  = Ok [["A"; "UNKNOWN_2"]; ["EMPTY"; "D"]; ["UNKNOWN_5"; "UNKNOWN_6"];
        ["UNKNOWN_7"; "UNKNOWN_8"]].
Proof. reflexivity. Qed.
Example layout_ex2 :
  Layout.convert_layer_to_names_with_dims (Some [[1; 2; 3; 4; 5]]) [] (-1) (Some 2) None
  = Ok [["UNKNOWN_1"; "UNKNOWN_2"; "UNKNOWN_3"]; ["UNKNOWN_4"; "UNKNOWN_5"; "EMPTY"]].
Proof. reflexivity. Qed.
Example layout_ex3 :
  Layout.print_layer_grid [["A"; "ABCDEFGHIJKLMNOP"]] 0
  = [""; "Layer 0:";
     "================================================================================";
     "Row 0: A            ABCDEFGHIJ.. ";
     "================================================================================"].
Proof. reflexivity. Qed.

(** * The chord codec *)

(** ** Hexadecimal text and [int(s, 16)] *)

Lemma hex_digit_not_underscore c :
  is_hex_digit c = true -> PyInt.is_underscore c = false.
Proof.
  unfold PyInt.is_underscore; intros H.
  destruct (Ascii.eqb c "_") eqn:E; [|reflexivity].
  apply Ascii.eqb_eq in E; subst c; discriminate H.
Qed.

Lemma digit_below_value base c d :
  PyInt.digit_below base c = Some d -> PyInt.digit_value c = Some d /\ d < base.
Proof.
  unfold PyInt.digit_below.
  destruct (PyInt.digit_value c) as [v|]; [|discriminate].
  destruct (v <? base) eqn:E; [|discriminate].
  intros [= <-]; split; [reflexivity | now apply Z.ltb_lt].
Qed.

Lemma scan_hex_digits l : forall acc,
  forallb is_hex_digit l = true ->
  PyInt.scan_digits 16 l false acc = Some (fold_left hex_step l acc, []).
Proof.
  induction l as [|c r IH]; intros acc H; simpl in *; [reflexivity|].
  apply andb_true_iff in H as [Hc Hr].
  rewrite (hex_digit_not_underscore _ Hc).
  unfold is_hex_digit in Hc.
  destruct (PyInt.digit_below 16 c) as [d|] eqn:E; [|discriminate].
  rewrite IH by assumption.
  apply digit_below_value in E as [E _].
  replace (hex_step acc c) with (acc * 16 + d)
    by (unfold hex_step; rewrite E; reflexivity).
  reflexivity.
Qed.

Lemma hex_digit_plain c :
  is_hex_digit c = true ->
  PyInt.isspace c = false /\ c <> "+"%char /\ c <> "-"%char /\ c <> "_"%char
  /\ c <> "x"%char /\ c <> "X"%char.
Proof.
  intros H; repeat split;
    try (intros ->; discriminate H).
  unfold is_hex_digit, PyInt.digit_below, PyInt.digit_value, PyInt.isspace in *.
  destruct ((48 <=? PyStr.ord c) && (PyStr.ord c <=? 57)) eqn:E1;
    [ apply andb_true_iff in E1 as [? ?]; lia |].
  destruct ((97 <=? PyStr.ord c) && (PyStr.ord c <=? 122)) eqn:E2;
    [ apply andb_true_iff in E2 as [? ?]; lia |].
  destruct ((65 <=? PyStr.ord c) && (PyStr.ord c <=? 90)) eqn:E3;
    [ apply andb_true_iff in E3 as [? ?]; lia | discriminate ].
Qed.

(** A non-empty string of hexadecimal digits parses to its unsigned
    value. *)
Lemma int16_hex_string s :
  hex_string s = true -> s <> "" -> PyInt.int16 s = Some (hex_value s).
Proof.
  unfold hex_string, PyInt.int16, PyInt.parse, hex_value, hex_value_chars.
  intros H Hne.
  destruct (list_ascii_of_string s) as [|c r] eqn:El.
  { destruct s; [congruence | discriminate El]. }
  pose proof H as H'. simpl in H'. apply andb_true_iff in H' as [Hc Hr].
  destruct (hex_digit_plain _ Hc) as (Hsp & Hplus & Hminus & Hus & Hx & HX).
  assert (Hskip : PyInt.skip_space (c :: r) = c :: r) by (simpl; now rewrite Hsp).
  rewrite Hskip.
  assert (Hsign : PyInt.take_sign (c :: r) = (1, c :: r)).
  { unfold PyInt.take_sign.
    destruct c as [[] [] [] [] [] [] [] []]; try reflexivity; congruence. }
  rewrite Hsign.
  assert (Hpre : PyInt.take_prefix 16 (c :: r) = c :: r).
  { unfold PyInt.take_prefix; simpl.
    destruct r as [|x r']; [destruct c as [[] [] [] [] [] [] [] []]; reflexivity|].
    simpl in Hr. apply andb_true_iff in Hr as [Hxd _].
    destruct (hex_digit_plain _ Hxd) as (_ & _ & _ & _ & Hx' & HX').
    apply Ascii.eqb_neq in Hx', HX'. rewrite Hx', HX'.
    destruct c as [[] [] [] [] [] [] [] []]; reflexivity. }
  rewrite Hpre.
  rewrite (scan_hex_digits (c :: r) 0 H).
  replace (match c with "_"%char => None | _ => _ end)
    with (Some (1 * fold_left hex_step (c :: r) 0)).
  - rewrite Z.mul_1_l. reflexivity.
  - destruct c as [[] [] [] [] [] [] [] []]; try reflexivity; congruence.
Qed.

(** ** [f"{n:X}"] gives back [n] under [int(s, 16)] *)

Lemma hex_digit_value d :
  0 <= d < 16 ->
  PyInt.digit_value (PyInt.hex_digit d) = Some d /\ is_hex_digit (PyInt.hex_digit d) = true.
Proof.
  intros H.
  assert (E : d = 0 \/ d = 1 \/ d = 2 \/ d = 3 \/ d = 4 \/ d = 5 \/ d = 6 \/ d = 7 \/
              d = 8 \/ d = 9 \/ d = 10 \/ d = 11 \/ d = 12 \/ d = 13 \/ d = 14 \/ d = 15)
    by lia.
  repeat destruct E as [-> | E]; try subst d; split; reflexivity.
Qed.

Lemma le_digits_range fuel : forall n,
  0 <= n -> Forall (fun d => 0 <= d < 16) (PyInt.le_digits 16 fuel n).
Proof.
  induction fuel as [|f IH]; intros n Hn; simpl; [constructor|].
  constructor.
  - apply Z.mod_pos_bound; lia.
  - destruct (n / 16 =? 0); [constructor|].
    apply IH. apply Z.div_pos; lia.
Qed.

Lemma le_digits_value fuel : forall n,
  0 <= n < 16 ^ Z.of_nat fuel -> le_value (PyInt.le_digits 16 fuel n) = n.
Proof.
  induction fuel as [|f IH]; intros n Hn.
  - simpl in *. lia.
  - cbn [PyInt.le_digits le_value].
    pose proof (Z.div_mod n 16 ltac:(lia)) as Hdm.
    destruct (n / 16 =? 0) eqn:E.
    + apply Z.eqb_eq in E. simpl. lia.
    + rewrite IH; [lia|].
      rewrite Nat2Z.inj_succ, Z.pow_succ_r in Hn by lia.
      split; [apply Z.div_pos; lia|].
      apply Z.div_lt_upper_bound; lia.
Qed.

Lemma fuel_enough n :
  0 <= n -> n < 16 ^ Z.of_nat (S (Z.to_nat (Z.log2 n))).
Proof.
  intros Hn.
  rewrite Nat2Z.inj_succ, Z2Nat.id by apply Z.log2_nonneg.
  destruct (Z.eq_dec n 0) as [->|Hz]; [reflexivity|].
  pose proof (Z.log2_spec n ltac:(lia)) as [_ Hlt].
  eapply Z.lt_le_trans; [exact Hlt|].
  apply Z.pow_le_mono_l. lia.
Qed.

Lemma hex_value_of_digits ds :
  Forall (fun d => 0 <= d < 16) ds ->
  fold_left hex_step (rev (map PyInt.hex_digit ds)) 0 = le_value ds
  /\ forallb is_hex_digit (rev (map PyInt.hex_digit ds)) = true.
Proof.
  induction 1 as [|d r Hd Hr [IHv IHh]]; [split; reflexivity|].
  destruct (hex_digit_value d Hd) as [Hv Hh].
  cbn [map rev le_value]. split.
  - rewrite fold_left_app, IHv. cbn [fold_left]. unfold hex_step. rewrite Hv. lia.
  - rewrite forallb_app, IHh. cbn [forallb]. now rewrite Hh.
Qed.

Lemma hex_of_nonneg_spec n :
  0 <= n ->
  hex_string (PyInt.hex_of_nonneg n) = true
  /\ PyInt.hex_of_nonneg n <> ""
  /\ hex_value (PyInt.hex_of_nonneg n) = n.
Proof.
  intros Hn.
  unfold hex_string, hex_value, hex_value_chars, PyInt.hex_of_nonneg, PyInt.digits_of_nonneg.
  rewrite list_ascii_of_string_of_list_ascii.
  set (fuel := S (Z.to_nat (Z.log2 n))).
  destruct (hex_value_of_digits _ (le_digits_range fuel n Hn)) as [Hv Hh].
  repeat split.
  - exact Hh.
  - subst fuel. cbn [PyInt.le_digits map rev].
    intros Habs. apply (f_equal list_ascii_of_string) in Habs.
    rewrite list_ascii_of_string_of_list_ascii in Habs.
    cbn [list_ascii_of_string] in Habs.
    symmetry in Habs. exact (app_cons_not_nil _ _ _ Habs).
  - rewrite Hv. apply le_digits_value. split; [exact Hn | apply fuel_enough, Hn].
Qed.

Lemma int16_format_X n : 0 <= n -> PyInt.int16 (PyInt.format_X n) = Some n.
Proof.
  intros Hn. unfold PyInt.format_X.
  destruct (n <? 0) eqn:E; [apply Z.ltb_lt in E; lia|].
  destruct (hex_of_nonneg_spec n Hn) as (Hh & Hne & Hv).
  rewrite int16_hex_string by assumption. now rewrite Hv.
Qed.

(** ** The action word: fields and the decoding loop *)

Lemma field_range value i : 0 <= field value i <= 1023.
Proof.
  assert (E : field value i = Z.shiftr value (i * 10) mod 1024)
    by (unfold field; change 1023 with (Z.ones 10); now rewrite Z.land_ones by lia).
  rewrite E.
  pose proof (Z.mod_pos_bound (Z.shiftr value (i * 10)) 1024 ltac:(lia)). lia.
Qed.

Lemma field_zero i : field 0 i = 0.
Proof. unfold field. now rewrite Z.shiftr_0_l, Z.land_0_l. Qed.

Lemma small_high_bits a m : 0 <= a < 1024 -> 10 <= m -> Z.testbit a m = false.
Proof.
  intros Ha Hm.
  rewrite <- (Z.mod_small a (2 ^ 10)) by (change (2 ^ 10) with 1024; lia).
  apply Z.mod_pow2_bits_high. lia.
Qed.

Lemma field_pack_first a p :
  0 <= a < 1024 -> field (Z.lor a (Z.shiftl p 10)) 0 = a.
Proof.
  intros Ha. unfold field. apply Z.bits_inj'. intros m Hm.
  change (0 * 10) with 0. rewrite Z.shiftr_0_r.
  change 1023 with (Z.ones 10).
  rewrite Z.land_spec, Z.lor_spec, Z.shiftl_spec, Z.testbit_ones_nonneg by lia.
  destruct (m <? 10) eqn:E.
  - apply Z.ltb_lt in E. rewrite (Z.testbit_neg_r p) by lia.
    now rewrite orb_false_r, andb_true_r.
  - apply Z.ltb_ge in E. rewrite (small_high_bits a m) by lia.
    now rewrite andb_false_r.
Qed.

Lemma field_pack_next a p i :
  0 <= a < 1024 -> 0 <= i ->
  field (Z.lor a (Z.shiftl p 10)) (Z.succ i) = field p i.
Proof.
  intros Ha Hi. unfold field. apply Z.bits_inj'. intros m Hm.
  rewrite !Z.land_spec, !Z.shiftr_spec, Z.lor_spec, Z.shiftl_spec by lia.
  rewrite (small_high_bits a) by lia.
  replace (m + Z.succ i * 10 - 10) with (m + i * 10) by lia.
  reflexivity.
Qed.

Lemma range_S n : range (S n) = 0 :: map Z.succ (range n).
Proof.
  unfold range. cbn [seq map]. f_equal.
  rewrite <- seq_shift, !map_map.
  apply map_ext. intros k. apply Nat2Z.inj_succ.
Qed.

Lemma range_nonneg n i : In i (range n) -> 0 <= i.
Proof.
  unfold range. rewrite in_map_iff. intros (k & <- & _). lia.
Qed.

Lemma fields_of_zero n : map (field 0) (range n) = repeat 0 n.
Proof.
  induction n as [|n IH]; [reflexivity|].
  rewrite range_S. cbn [map repeat]. rewrite field_zero, map_map. f_equal.
  rewrite <- IH. apply map_ext. intros i. now rewrite !field_zero.
Qed.

(** Packing then reading the fields gives the fields back, padded with
    zeros. *)
Lemma fields_of_pack l : forall n,
  Forall (fun a => 0 <= a < 1024) l -> (List.length l <= n)%nat ->
  map (field (pack_fields l)) (range n) = (l ++ repeat 0 (n - List.length l))%list.
Proof.
  induction l as [|a r IH]; intros n Hl Hn.
  - cbn [pack_fields List.length app]. rewrite Nat.sub_0_r. apply fields_of_zero.
  - inversion Hl as [|? ? Ha Hr]; subst.
    destruct n as [|n]; [simpl in Hn; lia|].
    rewrite range_S. cbn [map pack_fields List.length app Nat.sub].
    rewrite field_pack_first by assumption. f_equal.
    rewrite map_map. rewrite <- IH by (simpl in Hn; auto; lia).
    apply map_ext_in. intros i Hi.
    apply field_pack_next; [assumption | eapply range_nonneg; eassumption].
Qed.

Lemma pack_fields_nonneg l :
  Forall (fun a => 0 <= a < 1024) l -> 0 <= pack_fields l.
Proof.
  induction 1 as [|a r Ha _ IH]; cbn [pack_fields]; [lia|].
  apply Z.lor_nonneg. split; [lia|]. apply Z.shiftl_nonneg. exact IH.
Qed.

(** The [for i in range(12)] loop of [_parse_chord_actions] appends the
    nonzero fields in the order of [i]. *)
Lemma actions_loop value l : forall acc,
  fold_left
    (fun actions i =>
       let action := Z.land (Z.shiftr value (i * 10)) 1023 in
       if negb (action =? 0) then (actions ++ [action])%list else actions)
    l acc
  = (acc ++ filter nonzero (map (field value) l))%list.
Proof.
  induction l as [|i l IH]; intros acc; cbn [fold_left map filter].
  - now rewrite app_nil_r.
  - rewrite IH. fold (field value i). unfold nonzero at 2.
    destruct (negb (field value i =? 0)); [|reflexivity].
    now rewrite <- app_assoc.
Qed.

Lemma parse_chord_actions_decodes s value :
  PyInt.int16 s = Some value -> _parse_chord_actions s = decode_actions_spec value.
Proof.
  intros H. unfold _parse_chord_actions, decode_actions_spec. rewrite H.
  now rewrite actions_loop.
Qed.

Lemma filter_nonzero_codes l k :
  Forall (fun a => 1 <= a <= 1023) l ->
  filter nonzero (l ++ repeat 0 k) = l.
Proof.
  intros Hl. rewrite filter_app.
  replace (filter nonzero (repeat 0 k)) with (@nil Z)
    by (induction k; simpl; auto).
  rewrite app_nil_r.
  induction Hl as [|a r Ha _ IH]; [reflexivity|].
  cbn [filter]. unfold nonzero at 1.
  destruct (a =? 0) eqn:E; [apply Z.eqb_eq in E; lia|].
  cbn [negb]. now rewrite IH.
Qed.

(** ** The phrase decoder *)

Lemma parse_phrase_loop_step s i p :
  (i < String.length s)%nat ->
  parse_phrase_loop s i p =
  match try_lengths s i phrase_lengths with
  | Some (v, w) => parse_phrase_loop s (i + w) (p ++ [v])%list
  | None => parse_phrase_loop s (i + 1) p
  end.
Proof.
  intros H. rewrite parse_phrase_loop_equation_1.
  destruct (lt_dec i (String.length s)) as [Hl|Hl]; [|contradiction].
  unfold parse_phrase_loop_unfold_clause_1.
  destruct (inspect (try_lengths s i phrase_lengths)) as [[[v w]|] e].
  - rewrite parse_phrase_loop_clause_1_clause_1_equation_1. now rewrite e.
  - rewrite parse_phrase_loop_clause_1_clause_1_equation_2. now rewrite e.
Qed.

Lemma parse_phrase_loop_done s i p :
  (String.length s <= i)%nat -> parse_phrase_loop s i p = p.
Proof.
  intros H. rewrite parse_phrase_loop_equation_1.
  destruct (lt_dec i (String.length s)) as [Hl|Hl]; [lia|reflexivity].
Qed.

(** The [for ... else] over the widths is "the first candidate that fits
    and parses". *)
Lemma try_lengths_first_valid s i :
  try_lengths s i phrase_lengths = first_valid_token s i.
Proof.
  unfold phrase_lengths, first_valid_token, candidate. cbn [try_lengths].
  repeat match goal with
         | |- context [if ?c then _ else _] => destruct c
         | |- context [PyInt.int16 ?x] => destruct (PyInt.int16 x)
         end; reflexivity.
Qed.

Lemma substring_length s : forall i w,
  (i + w <= String.length s)%nat -> String.length (String.substring i w s) = w.
Proof.
  induction s as [|c s IH]; intros [|i] [|w] H; simpl in *; try lia; auto.
  - f_equal. apply (IH 0%nat). lia.
  - apply IH. lia.
  - apply IH. lia.
Qed.

Lemma substring_hex s : forall i w,
  hex_string s = true -> hex_string (String.substring i w s) = true.
Proof.
  unfold hex_string.
  induction s as [|c s IH]; intros [|i] [|w] H; simpl in *; auto.
  - apply andb_true_iff in H as [Hc Hs]. rewrite Hc. apply (IH 0%nat), Hs.
  - apply andb_true_iff in H as [_ Hs]. apply IH, Hs.
  - apply andb_true_iff in H as [_ Hs]. apply IH, Hs.
Qed.

Lemma candidate_hex s i w :
  hex_string s = true -> (0 < w)%nat -> (i + w <= String.length s)%nat ->
  candidate s i w = Some (hex_value (PyStr.slice s i w), w).
Proof.
  intros Hh Hw Hfit. unfold candidate.
  apply Nat.leb_le in Hfit as Hfit'. rewrite Hfit'.
  rewrite int16_hex_string; [reflexivity | now apply substring_hex |].
  intros E. apply (f_equal String.length) in E.
  unfold PyStr.slice in E. rewrite substring_length in E by assumption.
  simpl in E. lia.
Qed.

(** ** Claims about the codec *)

(** C7. For every list of at most 12 action codes, each in [1,1023],
    packing the list with the symmetric reference encoder (10-bit fields in
    reverse program order from the least significant bits, rendered as hex)
    and then decoding with [_parse_chord_actions] gives the list back. *)
Theorem encode_decode_roundtrip (codes : list Z) :
  (List.length codes <= 12)%nat ->
  Forall (fun a => 1 <= a <= 1023) codes ->
  _parse_chord_actions (encode_actions codes) = codes.
Proof.
  intros Hlen Hcodes.
  assert (Hrev : Forall (fun a => 1 <= a <= 1023) (rev codes))
    by (apply Forall_rev, Hcodes).
  assert (Hfields : Forall (fun a => 0 <= a < 1024) (rev codes))
    by (eapply Forall_impl; [|exact Hrev]; simpl; intros; lia).
  unfold encode_actions.
  rewrite (parse_chord_actions_decodes _ (pack_fields (rev codes)))
    by (apply int16_format_X, pack_fields_nonneg, Hfields).
  unfold decode_actions_spec.
  rewrite fields_of_pack by (rewrite ?length_rev; assumption).
  rewrite filter_nonzero_codes by assumption.
  apply rev_involutive.
Qed.

Lemma encode_decode_roundtrip_witness :
  _parse_chord_actions (encode_actions [3; 768; 1023]) = [3; 768; 1023].
Proof.
  apply (encode_decode_roundtrip [3; 768; 1023]).
  - simpl; lia.
  - repeat constructor; lia.
Defined.



(** C9, as the claim states it, fails on a signed input: ["-1"] is not a
    string of hexadecimal digits, yet [int("-1", 16)] accepts it as the
    signed number -1 and the decoder returns twelve codes 1023. *)
Lemma parse_chord_actions_signed_counterexample :
  hex_string "-1" = false
  /\ PyInt.int16 "-1" = Some (-1)
  /\ _parse_chord_actions "-1" = repeat 1023 12
  /\ _parse_chord_actions "-1" <> [].
Proof. repeat split; try reflexivity. discriminate. Qed.

(** C9, amended.  For every input string, [_parse_chord_actions] parses it
    with [int(_, 16)]: a non-empty string of hexadecimal digits as its
    unsigned value, and also any other text [int] accepts (sign, [0x]
    prefix, white space, underscores), a negative number in two's
    complement.  It extracts the twelve 10-bit fields from the least
    significant bits, keeps the nonzero ones and returns them reversed.
    ["0"] and every string [int(_, 16)] rejects give the empty sequence.
    The result has at most twelve codes, each in [1,1023]; the function is
    total. *)
Theorem parse_chord_actions_contract (hex_str : string) :
  (forall value, PyInt.int16 hex_str = Some value ->
                 _parse_chord_actions hex_str = decode_actions_spec value)
  /\ (PyInt.int16 hex_str = None -> _parse_chord_actions hex_str = [])
  /\ (hex_string hex_str = true -> hex_str <> "" ->
      _parse_chord_actions hex_str = decode_actions_spec (hex_value hex_str))
  /\ _parse_chord_actions "0" = []
  /\ (List.length (_parse_chord_actions hex_str) <= 12)%nat
  /\ Forall (fun a => 1 <= a <= 1023) (_parse_chord_actions hex_str).
Proof.
  assert (Hspec : forall value,
             (List.length (decode_actions_spec value) <= 12)%nat
             /\ Forall (fun a => 1 <= a <= 1023) (decode_actions_spec value)).
  { intros value. unfold decode_actions_spec. split.
    - rewrite length_rev.
      etransitivity; [apply filter_length_le|].
      rewrite length_map. unfold range. now rewrite length_map, length_seq.
    - apply Forall_rev. apply Forall_forall. intros a Ha.
      apply filter_In in Ha as [Hin Hnz].
      apply in_map_iff in Hin as (k & <- & _).
      pose proof (field_range value k).
      unfold nonzero in Hnz. apply negb_true_iff, Z.eqb_neq in Hnz. lia. }
  split; [apply parse_chord_actions_decodes|].
  split; [intros H; unfold _parse_chord_actions; now rewrite H|].
  split; [intros Hh Hne; apply parse_chord_actions_decodes, int16_hex_string;
          assumption|].
  split; [reflexivity|].
  destruct (PyInt.int16 hex_str) as [value|] eqn:E.
  - rewrite (parse_chord_actions_decodes _ _ E). apply Hspec.
  - unfold _parse_chord_actions. rewrite E. split; [simpl; lia | constructor].
Qed.

Lemma parse_chord_actions_contract_witness :
  _parse_chord_actions "F00" = decode_actions_spec 3840
  /\ _parse_chord_actions "xyz" = []
  /\ _parse_chord_actions "F00" = decode_actions_spec (hex_value "F00").
Proof.
  split; [|split].
  - apply (proj1 (parse_chord_actions_contract "F00")). reflexivity.
  - apply (proj1 (proj2 (parse_chord_actions_contract "xyz"))). reflexivity.
  - apply (proj1 (proj2 (proj2 (parse_chord_actions_contract "F00"))));
      [reflexivity | discriminate].
Defined.

(** * The line reader and the protocol engine *)

Lemma Qltb_lt x y : Qltb x y = true <-> (x < y)%Q.
Proof.
  unfold Qltb. rewrite negb_true_iff.
  split; intros H.
  - apply Qnot_le_lt. intros Hle. apply Qle_bool_iff in Hle. congruence.
  - destruct (Qle_bool y x) eqn:E; [|reflexivity].
    apply Qle_bool_iff in E. exfalso. exact (Qlt_not_le _ _ H E).
Qed.

Lemma Qltb_start t timeout : (0 < timeout)%Q -> Qltb (now t - now t) timeout = true.
Proof.
  intros H. apply Qltb_lt.
  assert (E : (now t - now t == 0)%Q) by (unfold Qminus; apply Qplus_opp_r).
  now rewrite E.
Qed.

Lemma truthy_nonempty s : PyStr.truthy s = true -> s <> "".
Proof.
  unfold PyStr.truthy. intros H ->. discriminate H.
Qed.

(** The loop only ever returns a line that passed [if line:]. *)
Lemma read_loop_line timeout start trace : forall buffer line trace',
  read_loop timeout start trace buffer = (Ok (Some line), trace') ->
  PyStr.truthy line = true.
Proof.
  induction trace as [|t rest IH]; intros buffer line trace' H; simpl in H.
  - discriminate.
  - destruct (Qltb (now t - start) timeout); [|discriminate].
    destruct (port t) as [|b|]; [eauto | | discriminate].
    destruct (Ascii.eqb b LF).
    + destruct (PyStr.truthy (PyStr.strip (decode_ascii_ignore buffer))) eqn:E.
      * injection H as <- _. exact E.
      * eauto.
    + destruct (Ascii.eqb b CR); eauto.
Qed.

Lemma read_loop_skips_blank timeout start t rest buffer :
  Qltb (now t - start) timeout = true ->
  port t = Byte LF ->
  PyStr.strip (decode_ascii_ignore buffer) = "" ->
  read_loop timeout start (t :: rest) buffer = read_loop timeout start rest buffer.
Proof.
  intros Hin Hlf Hblank. cbn [read_loop].
  rewrite Hin, Hlf, Hblank. reflexivity.
Qed.

Lemma read_loop_skips_cr timeout start t rest buffer :
  Qltb (now t - start) timeout = true ->
  port t = Byte CR ->
  read_loop timeout start (t :: rest) buffer = read_loop timeout start rest buffer.
Proof.
  intros Hin Hcr. cbn [read_loop].
  rewrite Hin, Hcr. reflexivity.
Qed.

Lemma lstrip_Forall (P : ascii -> Prop) l : Forall P l -> Forall P (PyStr.lstrip_chars l).
Proof.
  induction 1 as [|c r Hc Hr IH]; cbn [PyStr.lstrip_chars]; [constructor|].
  destruct (PyStr.isspace c); [exact IH | now constructor].
Qed.

Lemma lstrip_head l c r : PyStr.lstrip_chars l = c :: r -> PyStr.isspace c = false.
Proof.
  induction l as [|a l IH]; cbn [PyStr.lstrip_chars]; [discriminate|].
  destruct (PyStr.isspace a) eqn:E; [exact IH|].
  intros [= <- _]. exact E.
Qed.

Lemma lstrip_keeps_last l c :
  PyStr.isspace c = false ->
  PyStr.lstrip_chars (l ++ [c]) = (PyStr.lstrip_chars l ++ [c])%list.
Proof.
  intros Hc. induction l as [|a l IH]; cbn [PyStr.lstrip_chars app].
  - now rewrite Hc.
  - destruct (PyStr.isspace a); [exact IH | reflexivity].
Qed.

Lemma strip_chars_Forall (P : ascii -> Prop) l : Forall P l -> Forall P (PyStr.strip_chars l).
Proof.
  intros H. unfold PyStr.strip_chars.
  apply Forall_rev, lstrip_Forall, Forall_rev, lstrip_Forall, H.
Qed.

Lemma strip_chars_first l c r :
  PyStr.strip_chars l = c :: r -> PyStr.isspace c = false.
Proof.
  unfold PyStr.strip_chars.
  destruct (PyStr.lstrip_chars l) as [|a m] eqn:E; [discriminate|].
  pose proof (lstrip_head _ _ _ E) as Ha.
  cbn [rev]. rewrite lstrip_keeps_last by exact Ha.
  rewrite rev_app_distr. cbn [rev app]. intros [= <- _]. exact Ha.
Qed.

Lemma strip_chars_last l front c :
  PyStr.strip_chars l = (front ++ [c])%list -> PyStr.isspace c = false.
Proof.
  unfold PyStr.strip_chars. intros H.
  apply (f_equal (@rev ascii)) in H.
  rewrite rev_involutive, rev_app_distr in H. cbn [rev app] in H.
  exact (lstrip_head _ _ _ H).
Qed.

Lemma lstrip_blank_prefix ws l :
  forallb PyStr.isspace ws = true ->
  PyStr.lstrip_chars (ws ++ l) = PyStr.lstrip_chars l.
Proof.
  induction ws as [|c ws IH]; intros H; [reflexivity|].
  cbn [forallb] in H. apply andb_true_iff in H as [Hc Hws].
  cbn [app PyStr.lstrip_chars]. rewrite Hc. now apply IH.
Qed.

Lemma strip_chars_blank_prefix ws l :
  forallb PyStr.isspace ws = true ->
  PyStr.strip_chars (ws ++ l) = PyStr.strip_chars l.
Proof.
  intros H. unfold PyStr.strip_chars. now rewrite lstrip_blank_prefix.
Qed.

Lemma strip_chars_blank ws :
  forallb PyStr.isspace ws = true -> PyStr.strip_chars ws = [].
Proof.
  intros H. rewrite <- (app_nil_r ws). now rewrite strip_chars_blank_prefix.
Qed.

Lemma filter_blank (f : ascii -> bool) ws :
  forallb PyStr.isspace ws = true -> forallb PyStr.isspace (filter f ws) = true.
Proof.
  induction ws as [|c ws IH]; intros H; [reflexivity|].
  cbn [forallb] in H. apply andb_true_iff in H as [Hc Hws].
  cbn [filter]. destruct (f c); cbn [forallb]; rewrite ?Hc; now apply IH.
Qed.

(** White space at the front of the buffer never shows in the line. *)
Lemma strip_decode_blank_prefix ws buffer :
  forallb PyStr.isspace ws = true ->
  PyStr.strip (decode_ascii_ignore (ws ++ buffer))
  = PyStr.strip (decode_ascii_ignore buffer).
Proof.
  intros H. unfold PyStr.strip, decode_ascii_ignore.
  rewrite !list_ascii_of_string_of_list_ascii, filter_app.
  now rewrite strip_chars_blank_prefix by (apply filter_blank, H).
Qed.

Lemma strip_blank s :
  forallb PyStr.isspace (list_ascii_of_string s) = true -> PyStr.strip s = "".
Proof.
  intros H. unfold PyStr.strip. now rewrite strip_chars_blank.
Qed.

Lemma read_loop_blank_prefix timeout start trace : forall ws buffer,
  forallb PyStr.isspace ws = true ->
  read_loop timeout start trace (ws ++ buffer) = read_loop timeout start trace buffer.
Proof.
  induction trace as [|t rest IH]; intros ws buffer H; cbn [read_loop];
    [reflexivity|].
  destruct (Qltb (now t - start) timeout); [|reflexivity].
  destruct (port t) as [|b|]; [now apply IH | | reflexivity].
  rewrite (strip_decode_blank_prefix ws buffer H).
  destruct (Ascii.eqb b LF).
  - destruct (PyStr.truthy _); [reflexivity | now apply IH].
  - destruct (Ascii.eqb b CR); [now apply IH|].
    rewrite <- app_assoc. now apply IH.
Qed.

(** A run of white-space bytes read inside the window, line feeds among
    them, leaves the loop where it was. *)
Lemma read_loop_blank_run timeout start blank trace : forall buffer,
  Forall (fun b => Qltb (now b - start) timeout = true
                   /\ exists c, port b = Byte c /\ PyStr.isspace c = true) blank ->
  forallb PyStr.isspace buffer = true ->
  read_loop timeout start (blank ++ trace) buffer = read_loop timeout start trace [].
Proof.
  induction blank as [|b blank IH]; intros buffer Hblank Hbuf.
  - cbn [app]. rewrite <- (app_nil_r buffer) at 1.
    now apply read_loop_blank_prefix.
  - inversion Hblank as [|? ? (Hin & c & Hport & Hc) Hrest]; subst.
    cbn [app read_loop]. rewrite Hin, Hport.
    destruct (Ascii.eqb c LF).
    + rewrite strip_blank; [now apply IH|].
      unfold decode_ascii_ignore. rewrite list_ascii_of_string_of_list_ascii.
      now apply filter_blank.
    + destruct (Ascii.eqb c CR); [now apply IH|].
      apply IH; [exact Hrest|].
      rewrite forallb_app, Hbuf. cbn [forallb]. now rewrite Hc.
Qed.

Lemma read_line_skips_blank_run timeout self t blank rest :
  (0 < timeout)%Q -> Forall (blank_tick t) blank ->
  _read_line timeout (with_serial (set_incoming (blank ++ t :: rest)) self)
  = _read_line timeout (with_serial (set_incoming (t :: rest)) self).
Proof.
  intros Hpos Hblank. unfold _read_line.
  cbn [with_serial set_incoming serial incoming].
  assert (Hstart : match (blank ++ t :: rest)%list with
                   | b :: _ => now b
                   | [] => 0%Q
                   end = now t).
  { destruct blank as [|b blank']; [reflexivity|].
    inversion Hblank as [|? ? [Hnow _] _]; subst. exact Hnow. }
  rewrite Hstart.
  rewrite (read_loop_blank_run timeout (now t) blank (t :: rest) []);
    [|eapply Forall_impl; [|exact Hblank]|reflexivity].
  - destruct (read_loop timeout (now t) (t :: rest) []) as [r trace'].
    reflexivity.
  - intros b [Hnow Hbyte]. split; [|exact Hbyte].
    rewrite Hnow. now apply Qltb_start.
Qed.

Lemma read_loop_stripped timeout start trace : forall buffer line trace',
  read_loop timeout start trace buffer = (Ok (Some line), trace') ->
  exists buffer', line = PyStr.strip (decode_ascii_ignore buffer').
Proof.
  induction trace as [|t rest IH]; intros buffer line trace' H; cbn [read_loop] in H.
  - discriminate.
  - destruct (Qltb (now t - start) timeout); [|discriminate].
    destruct (port t) as [|b|]; [eauto | | discriminate].
    destruct (Ascii.eqb b LF).
    + destruct (PyStr.truthy (PyStr.strip (decode_ascii_ignore buffer))); [|eauto].
      injection H as <- _. eauto.
    + destruct (Ascii.eqb b CR); eauto.
Qed.

Lemma isascii_append a b :
  PyStr.isascii (a ++ b) = PyStr.isascii a && PyStr.isascii b.
Proof.
  unfold PyStr.isascii. induction a as [|c a IH]; cbn; [reflexivity|].
  now rewrite IH, andb_assoc.
Qed.

(** [_send_raw] on a command that encodes. *)
Lemma send_raw_ascii command self :
  PyStr.isascii command = true ->
  _send_raw command self =
  match incoming (serial self) with
  | {| port := Fault |} :: _ => (Raised SerialException, self)
  | _ => (Ok tt, with_serial (add_written (command ++ CRLF)) self)
  end.
Proof.
  intros H. unfold _send_raw. rewrite isascii_append, H. reflexivity.
Qed.

Lemma send_raw_ok command self self1 :
  _send_raw command self = (Ok tt, self1) ->
  self1 = with_serial (add_written (command ++ CRLF)) self.
Proof.
  unfold _send_raw.
  destruct (negb (PyStr.isascii (command ++ CRLF))); [discriminate|].
  destruct (incoming (serial self)) as [|[n [|b|]] rest]; try discriminate;
    now intros [= <-].
Qed.

(** [send_command], step by step. *)
Lemma send_command_unfold command_parts timeout self :
  send_command command_parts timeout self =
  match _send_raw (PyStr.join " " command_parts) self with
  | (Raised e, self1) => (Raised e, self1)
  | (Ok _, self1) =>
      match _read_line timeout self1 with
      | (Raised e, self2) => (Raised e, self2)
      | (Ok None, self2) => (Ok [], self2)
      | (Ok (Some response), self2) => parse_response command_parts response self2
      end
  end.
Proof.
  unfold send_command, bind, ret.
  destruct (_send_raw _ self) as [[[]|e] self1]; [|reflexivity].
  destruct (_read_line timeout self1) as [[[response|]|e] self2]; reflexivity.
Qed.

Lemma split_nonempty sep s : exists p0 ps, PyStr.split sep s = p0 :: ps.
Proof.
  induction s as [|c s (p0 & ps & IH)]; simpl; [eauto|].
  destruct (Ascii.eqb c sep); [eauto|]. rewrite IH. eauto.
Qed.

Lemma parse_response_payload c0 cs response self :
  parse_response (c0 :: cs) response self
  = (Ok (echoed_payload c0 cs (PyStr.split " " response)), self).
Proof.
  unfold parse_response.
  destruct (split_nonempty " " response) as (p0 & ps & ->).
  unfold bind, index, ret, echoed_payload. cbn [nth_error List.length].
  destruct (String.eqb p0 c0); cbn [andb Nat.leb].
  - destruct cs as [|c1 cs'], ps as [|p1 rest]; cbn; try reflexivity;
      try destruct (String.eqb p1 c1); destruct rest; reflexivity.
  - destruct (PyStr.startswith response "UKN"); reflexivity.
Qed.

Lemma split_head_ukn reply :
  PyStr.startswith reply "UKN" = true ->
  exists p0 ps, PyStr.split " " reply = p0 :: ps /\ PyStr.startswith p0 "UKN" = true.
Proof.
  intros H.
  destruct reply as [|a [|b [|c rest]]]; cbn [PyStr.startswith] in H;
    try discriminate;
    repeat match type of H with
           | (_ && _) = true => apply andb_true_iff in H as [?E H]
           end;
    try discriminate.
  apply Ascii.eqb_eq in E, E0, E1. subst a b c.
  cbn [PyStr.split Ascii.eqb Bool.eqb].
  destruct (split_nonempty " " rest) as (h & t & ->).
  eexists; eexists; split; reflexivity.
Qed.

(** ** Claims about the line reader and the protocol engine *)

(** C10. [_read_line] never returns an empty line, nor one that starts
    with white space.  A line feed that arrives while the buffer is empty
    or holds only white space is skipped and the loop goes on with the same
    start time and timeout.  So blank lines waiting on the wire, bare CR LF
    or white space closed by a line feed, change nothing: [_read_line]
    returns what it would return without them, and so does
    [send_command]. *)
Theorem read_line_never_blank :
  (forall timeout self line self',
      _read_line timeout self = (Ok (Some line), self') ->
      line <> ""
      /\ exists c rest, list_ascii_of_string line = c :: rest
                        /\ PyStr.isspace c = false)
  /\ (forall timeout start t rest buffer,
         Qltb (now t - start) timeout = true ->
         port t = Byte LF ->
         forallb PyStr.isspace (filter (fun c => PyStr.ord c <? 128) buffer) = true ->
         read_loop timeout start (t :: rest) buffer
         = read_loop timeout start rest buffer)
  /\ (forall timeout self t blank rest,
         (0 < timeout)%Q -> Forall (blank_tick t) blank ->
         _read_line timeout (with_serial (set_incoming (blank ++ t :: rest)) self)
         = _read_line timeout (with_serial (set_incoming (t :: rest)) self))
  /\ (forall command_parts timeout self t blank rest,
         (0 < timeout)%Q -> Forall (blank_tick t) blank -> port t <> Fault ->
         PyStr.isascii (PyStr.join " " command_parts) = true ->
         send_command command_parts timeout
           (with_serial (set_incoming (blank ++ t :: rest)) self)
         = send_command command_parts timeout
             (with_serial (set_incoming (t :: rest)) self)).
Proof.
  split; [|split; [|split]].
  - intros timeout self line self' H. unfold _read_line in H.
    destruct (read_loop _ _ _ _) as [r trace'] eqn:E.
    injection H as -> _.
    pose proof (truthy_nonempty _ (read_loop_line _ _ _ _ _ _ E)) as Hne.
    split; [exact Hne|].
    destruct (read_loop_stripped _ _ _ _ _ _ E) as (buffer & ->).
    unfold PyStr.strip in *.
    destruct (PyStr.strip_chars (list_ascii_of_string (decode_ascii_ignore buffer)))
      as [|c rest] eqn:Es; [now elim Hne|].
    exists c, rest. rewrite list_ascii_of_string_of_list_ascii.
    split; [reflexivity | exact (strip_chars_first _ _ _ Es)].
  - intros timeout start t rest buffer Hin Hlf Hblank.
    apply read_loop_skips_blank; [exact Hin | exact Hlf |].
    apply strip_blank. unfold decode_ascii_ignore.
    now rewrite list_ascii_of_string_of_list_ascii.
  - intros timeout self t blank rest. apply read_line_skips_blank_run.
  - intros command_parts timeout self t blank rest Hpos Hblank Hport Hascii.
    rewrite !send_command_unfold.
    set (cmd := PyStr.join " " command_parts) in *.
    assert (E1 : _send_raw cmd (with_serial (set_incoming (blank ++ t :: rest)) self)
                 = (Ok tt, with_serial (set_incoming (blank ++ t :: rest))
                             (with_serial (add_written (cmd ++ CRLF)) self))).
    { rewrite send_raw_ascii by exact Hascii.
      cbn [with_serial set_incoming serial incoming].
      destruct blank as [|b blank']; cbn [app].
      - destruct t as [n [|c|]]; [reflexivity | reflexivity | now elim Hport].
      - inversion Hblank as [|? ? (_ & c & Hb & _) _]; subst.
        destruct b as [n p]. cbn [port] in Hb. subst p. reflexivity. }
    assert (E2 : _send_raw cmd (with_serial (set_incoming (t :: rest)) self)
                 = (Ok tt, with_serial (set_incoming (t :: rest))
                             (with_serial (add_written (cmd ++ CRLF)) self))).
    { rewrite send_raw_ascii by exact Hascii.
      cbn [with_serial set_incoming serial incoming].
      destruct t as [n [|c|]]; [reflexivity | reflexivity | now elim Hport]. }
    rewrite E1, E2, read_line_skips_blank_run by assumption. reflexivity.
Qed.

Lemma read_line_never_blank_witness :
  "VERSION 2.2.0-beta.20" <> ""
  /\ read_loop 2 0 ({| now := 1; port := Byte LF |} :: arrive 1 ("RAM 5" ++ CRLF))
       [" "; "009"]%char
     = read_loop 2 0 (arrive 1 ("RAM 5" ++ CRLF)) [" "; "009"]%char
  /\ fst (_read_line 2
            (__init__ (arrive 0 (CRLF ++ "  " ++ CRLF) ++ idle 0
                         :: arrive 0 ("RAM 5" ++ CRLF))))
     = Ok (Some "RAM 5")
  /\ fst (send_command ["RAM"] 2
            (__init__ (arrive 0 (" " ++ CRLF) ++ idle 0
                         :: arrive 0 ("RAM 5" ++ CRLF))))
     = Ok ["5"].
Proof.
  assert (Hblank : forall s,
             forallb PyStr.isspace (list_ascii_of_string s) = true ->
             Forall (blank_tick (idle 0)) (arrive 0 s)).
  { intros s Hs. unfold arrive. apply Forall_forall. intros b Hb.
    apply in_map_iff in Hb as (c & <- & Hc). split; [reflexivity|].
    exists c. split; [reflexivity|].
    rewrite forallb_forall in Hs. now apply Hs. }
  split; [|split; [|split]].
  - apply (proj1 read_line_never_blank 2%Q
             (__init__ (arrive 0 ("VERSION 2.2.0-beta.20" ++ CRLF)))
             "VERSION 2.2.0-beta.20" (__init__ [])).
    reflexivity.
  - apply (proj1 (proj2 read_line_never_blank)); reflexivity.
  - change (__init__ (arrive 0 (CRLF ++ "  " ++ CRLF) ++ idle 0
                        :: arrive 0 ("RAM 5" ++ CRLF)))
      with (with_serial
              (set_incoming (arrive 0 (CRLF ++ "  " ++ CRLF) ++ idle 0
                               :: arrive 0 ("RAM 5" ++ CRLF)))
              (__init__ [])).
    rewrite (proj1 (proj2 (proj2 read_line_never_blank)) 2%Q (__init__ []) (idle 0));
      [reflexivity | reflexivity | apply Hblank; reflexivity].
  - change (__init__ (arrive 0 (" " ++ CRLF) ++ idle 0 :: arrive 0 ("RAM 5" ++ CRLF)))
      with (with_serial
              (set_incoming (arrive 0 (" " ++ CRLF) ++ idle 0
                               :: arrive 0 ("RAM 5" ++ CRLF)))
              (__init__ [])).
    rewrite (proj2 (proj2 (proj2 read_line_never_blank)) ["RAM"] 2%Q (__init__ [])
               (idle 0));
      [reflexivity | reflexivity | apply Hblank; reflexivity | discriminate
      | reflexivity].
Defined.

(** C5, as the claim states it, fails twice: a reply that starts with
    [UKN] is returned as payload when the command's own first part is that
    token, and an empty command part list raises [IndexError] as soon as a
    reply arrives. *)
Lemma send_command_echo_counterexample :
  PyStr.startswith "UKN 1" "UKN" = true
  /\ fst (send_command ["UKN"] 2 (__init__ (arrive 0 ("UKN 1" ++ CRLF)))) = Ok ["1"]
  /\ fst (send_command [] 2 (__init__ (arrive 0 ("VERSION 1" ++ CRLF))))
     = Raised IndexError.
Proof. repeat split. Qed.

(** C5, amended.  For every command with at least one part and every reply
    line, [send_command] does not raise and returns: the empty sequence
    when the reply's first token differs from the command's first part (so
    for every reply starting with [UKN], unless the command itself starts
    so); for a one-part command whose first token matches, the tokens after
    it; for a command of two or more parts, the tokens after the second
    when both match, and the empty sequence when the reply has no second
    token or the second differs. *)
Theorem send_command_echo (self self1 self2 : CharaDevice)
    (c0 : string) (cs : list string) (timeout : Q) (reply : string) :
  _send_raw (PyStr.join " " (c0 :: cs)) self = (Ok tt, self1) ->
  _read_line timeout self1 = (Ok (Some reply), self2) ->
  exists payload,
    send_command (c0 :: cs) timeout self = (Ok payload, self2)
    /\ (forall p0 ps, PyStr.split " " reply = p0 :: ps -> p0 <> c0 -> payload = [])
    /\ (PyStr.startswith reply "UKN" = true -> PyStr.startswith c0 "UKN" = false ->
        payload = [])
    /\ (forall ps, cs = [] -> PyStr.split " " reply = c0 :: ps -> payload = ps)
    /\ (forall c1 cs', cs = c1 :: cs' -> PyStr.split " " reply = [c0] -> payload = [])
    /\ (forall c1 cs' p1 ps,
           cs = c1 :: cs' -> PyStr.split " " reply = c0 :: p1 :: ps ->
           (p1 = c1 -> payload = ps) /\ (p1 <> c1 -> payload = []))
    /\ (c0 :: cs = ["VERSION"] -> reply = "VERSION 2.2.0-beta.20" ->
        payload = ["2.2.0-beta.20"])
    /\ (c0 :: cs = ["VERSION"] -> reply = "UKN" -> payload = []).
Proof.
  intros Hsend Hread.
  exists (echoed_payload c0 cs (PyStr.split " " reply)).
  assert (Hdiff : forall p0 ps, PyStr.split " " reply = p0 :: ps -> p0 <> c0 ->
                                echoed_payload c0 cs (PyStr.split " " reply) = []).
  { intros p0 ps -> Hne. cbn [echoed_payload].
    apply String.eqb_neq in Hne. now rewrite Hne. }
  split; [|split; [|split; [|split; [|split; [|split; [|split]]]]]].
  - rewrite send_command_unfold, Hsend, Hread. apply parse_response_payload.
  - exact Hdiff.
  - intros Hr Hc. destruct (split_head_ukn _ Hr) as (p0 & ps & E & Hp).
    apply (Hdiff p0 ps E). intros ->. congruence.
  - intros ps -> ->. cbn [echoed_payload]. now rewrite String.eqb_refl.
  - intros c1 cs' -> ->. cbn [echoed_payload]. now rewrite String.eqb_refl.
  - intros c1 cs' p1 ps -> ->. cbn [echoed_payload]. rewrite String.eqb_refl.
    split.
    + intros ->. now rewrite String.eqb_refl.
    + intros Hne. apply String.eqb_neq in Hne. now rewrite Hne.
  - intros [= -> ->] ->. reflexivity.
  - intros [= -> ->] ->. reflexivity.
Qed.

Lemma send_command_echo_witness :
  exists payload,
    fst (send_command ["CML"; "C0"] 2 (__init__ (arrive 0 ("CML C0 42" ++ CRLF))))
    = Ok payload /\ payload = ["42"].
Proof.
  destruct (send_command_echo
              (__init__ (arrive 0 ("CML C0 42" ++ CRLF)))
              (snd (_send_raw "CML C0" (__init__ (arrive 0 ("CML C0 42" ++ CRLF)))))
              (snd (_read_line 2
                      (snd (_send_raw "CML C0"
                              (__init__ (arrive 0 ("CML C0 42" ++ CRLF)))))))
              "CML" ["C0"] 2%Q "CML C0 42" eq_refl eq_refl)
    as (payload & Hrun & _ & _ & _ & _ & Htwo & _).
  exists payload. split.
  - now rewrite Hrun.
  - apply (proj1 (Htwo "C0" [] "C0" ["42"] eq_refl eq_refl)). reflexivity.
Defined.

(** C3, as the claim states it, fails: when the reply line to [VAR B1 10]
    is the bare [5 0], its first token is not the echoed [VAR], so
    [send_command] returns nothing and [get_setting(0, 0x10)] returns
    [None], not 5. *)
Lemma get_setting_bare_reply_counterexample :
  written (serial (snd (get_setting 0 16 (__init__ (arrive 0 ("5 0" ++ CRLF))))))
  = ["VAR B1 10" ++ CRLF]
  /\ fst (_read_line 2
            (snd (_send_raw "VAR B1 10" (__init__ (arrive 0 ("5 0" ++ CRLF))))))
     = Ok (Some "5 0")
  /\ fst (get_setting 0 16 (__init__ (arrive 0 ("5 0" ++ CRLF)))) = Ok None
  /\ fst (get_setting 0 16 (__init__ (arrive 0 ("5 0" ++ CRLF)))) <> Ok (Some 5).
Proof. repeat split. discriminate. Qed.

(** C3, amended.  [get_setting(0, 0x10)] issues [VAR B1 10].  When the
    reply line is [VAR B1 5 0], the echoed prefix followed by the tokens
    [5 0], it returns 5; when the reply line is [VAR B1 5 1] it returns
    [None]; the bare lines [5 0] and [5 1], without the echo, give [None]
    as well. *)
Theorem get_setting_echoed_reply (self self1 self2 : CharaDevice) (reply : string) :
  _send_raw "VAR B1 10" self = (Ok tt, self1) ->
  _read_line 2 self1 = (Ok (Some reply), self2) ->
  written (serial self1) = List.app (written (serial self)) ["VAR B1 10" ++ CRLF]
  /\ (reply = "VAR B1 5 0" -> get_setting 0 16 self = (Ok (Some 5), self2))
  /\ (reply = "VAR B1 5 1" -> get_setting 0 16 self = (Ok None, self2))
  /\ (reply = "5 0" \/ reply = "5 1" -> get_setting 0 16 self = (Ok None, self2)).
Proof.
  intros Hsend Hread.
  assert (Hrun : forall payload,
             parse_response ["VAR"; "B1"; "10"] reply self2 = (Ok payload, self2) ->
             send_command ["VAR"; "B1"; PyInt.format_X (16 + 0 * 256)] 2 self
             = (Ok payload, self2)).
  { intros payload Hp. rewrite send_command_unfold.
    change (PyStr.join " " ["VAR"; "B1"; PyInt.format_X (16 + 0 * 256)])
      with "VAR B1 10".
    rewrite Hsend, Hread. exact Hp. }
  split; [|split; [|split]].
  - rewrite (send_raw_ok _ _ _ Hsend). reflexivity.
  - intros ->. unfold get_setting, bind.
    rewrite (Hrun ["5"; "0"]) by reflexivity. reflexivity.
  - intros ->. unfold get_setting, bind.
    rewrite (Hrun ["5"; "1"]) by reflexivity. reflexivity.
  - intros [-> | ->]; unfold get_setting, bind;
      rewrite (Hrun []) by reflexivity; reflexivity.
Qed.

Lemma get_setting_echoed_reply_witness :
  fst (get_setting 0 16 (__init__ (arrive 0 ("VAR B1 5 0" ++ CRLF)))) = Ok (Some 5).
Proof.
  rewrite (proj1 (proj2 (get_setting_echoed_reply
                           (__init__ (arrive 0 ("VAR B1 5 0" ++ CRLF)))
                           (snd (_send_raw "VAR B1 10"
                                   (__init__ (arrive 0 ("VAR B1 5 0" ++ CRLF)))))
                           (with_serial (add_written ("VAR B1 10" ++ CRLF)) (__init__ []))
                           "VAR B1 5 0" eq_refl eq_refl)) eq_refl).
  reflexivity.
Defined.

(** * The capability resolver *)

(** ** The version comparator *)

Lemma gte_loop_numeric current target c0 c1 c2 t0 t1 t2 :
  component current 0 = Some c0 -> component current 1 = Some c1 ->
  component current 2 = Some c2 ->
  component target 0 = Some t0 -> component target 1 = Some t1 ->
  component target 2 = Some t2 ->
  gte_loop current target (seq 0 3) = Some (lex_gte (c0, c1, c2) (t0, t1, t2)).
Proof.
  intros Hc0 Hc1 Hc2 Ht0 Ht1 Ht2.
  cbn [seq gte_loop lex_gte]. rewrite Hc0, Ht0, Hc1, Ht1, Hc2, Ht2.
  destruct (c0 >? t0); [reflexivity|]. destruct (c0 <? t0); [reflexivity|].
  destruct (c1 >? t1); [reflexivity|]. destruct (c1 <? t1); [reflexivity|].
  rewrite Z.gtb_ltb, Z.geb_leb.
  destruct (Z.ltb_spec t2 c2), (Z.ltb_spec c2 t2), (Z.leb_spec t2 c2);
    try reflexivity; lia.
Qed.




Lemma split_no_separator sep a :
  (forall c, In c (list_ascii_of_string a) -> c <> sep) -> PyStr.split sep a = [a].
Proof.
  induction a as [|c a IH]; intros Hno; cbn [PyStr.split]; [reflexivity|].
  assert (Hc : Ascii.eqb c sep = false)
    by (apply Ascii.eqb_neq, Hno; left; reflexivity).
  rewrite Hc, IH; [reflexivity|].
  intros c' Hin. apply Hno. right. exact Hin.
Qed.





(** ** Calls that leave the capability fields alone *)

Lemma preserves_ret {A} (a : A) : preserves_caps (ret a).
Proof. intros self. reflexivity. Qed.

Lemma preserves_raise {A} (e : exn) : preserves_caps (@raise A e).
Proof. intros self. reflexivity. Qed.

Lemma preserves_bind {A B} (m : M A) (k : A -> M B) :
  preserves_caps m -> (forall a, preserves_caps (k a)) -> preserves_caps (bind m k).
Proof.
  intros Hm Hk self. unfold bind. specialize (Hm self).
  destruct (m self) as [[a|e] self1]; cbn [snd] in *; [|exact Hm].
  now rewrite Hk.
Qed.

Lemma preserves_with_serial (f : Serial -> Serial) :
  preserves_caps (modify (with_serial f)).
Proof. intros self. reflexivity. Qed.

Lemma preserves_send_raw command : preserves_caps (_send_raw command).
Proof.
  intros self. unfold _send_raw.
  destruct (negb (PyStr.isascii (command ++ CRLF))); [reflexivity|].
  destruct (incoming (serial self)) as [|[n [|b|]] rest]; reflexivity.
Qed.

Lemma preserves_assign_timeout timeout : preserves_caps (assign_timeout timeout).
Proof.
  unfold assign_timeout. destruct timeout as [t|]; [destruct (Qltb t 0)|];
    intros self; reflexivity.
Qed.

Lemma preserves_read_line timeout : preserves_caps (_read_line timeout).
Proof.
  intros self. unfold _read_line.
  destruct (read_loop _ _ _ _) as [r trace']. reflexivity.
Qed.

Lemma preserves_index l i : preserves_caps (index l i).
Proof. unfold index. destruct (nth_error l i); intros self; reflexivity. Qed.

Create HintDb caps.
#[local] Hint Resolve preserves_ret preserves_raise preserves_with_serial
  preserves_send_raw preserves_read_line preserves_index : caps.

Ltac preserve :=
  repeat first
    [ progress auto with caps
    | apply preserves_bind; [|intros ?]
    | match goal with
      | |- preserves_caps (match ?x with _ => _ end) => destruct x
      | |- preserves_caps (if ?x then _ else _) => destruct x
      end ].

Lemma preserves_parse_response command_parts response :
  preserves_caps (parse_response command_parts response).
Proof. unfold parse_response. preserve. Qed.

Lemma preserves_send_command command_parts timeout :
  preserves_caps (send_command command_parts timeout).
Proof.
  unfold send_command. pose proof preserves_parse_response. preserve.
Qed.

#[local] Hint Resolve preserves_send_command : caps.

Lemma preserves_get_chord_count : preserves_caps get_chord_count.
Proof. unfold get_chord_count. preserve. Qed.

Lemma preserves_get_ram_bytes_available : preserves_caps get_ram_bytes_available.
Proof. unfold get_ram_bytes_available. preserve. Qed.

Lemma preserves_get_setting profile setting_id :
  preserves_caps (get_setting profile setting_id).
Proof. unfold get_setting. preserve. Qed.

Lemma preserves_get_chord index : preserves_caps (get_chord index).
Proof. unfold get_chord. preserve. Qed.

Lemma preserves_query_key timeout : preserves_caps (query_key timeout).
Proof.
  intros self. unfold query_key.
  assert (H : preserves_caps (query_key_body timeout))
    by (unfold query_key_body; pose proof preserves_assign_timeout; preserve).
  specialize (H self).
  destruct (query_key_body timeout self) as [r self']. exact H.
Qed.

Lemma preserves_close : preserves_caps close.
Proof. unfold close. preserve. Qed.

(** ** The handshake, step by step *)

Lemma init_body_unfold self :
  init_body self =
  match send_command ["VERSION"] 2 self with
  | (Raised e, self1) => (Raised e, self1)
  | (Ok version_response, self1) =>
      match send_command ["ID"] 2 (after_version version_response self1) with
      | (Raised e, self2) => (Raised e, self2)
      | (Ok id_response, self2) => (Ok true, after_id id_response self2)
      end
  end.
Proof.
  unfold init_body, bind.
  destruct (send_command ["VERSION"] 2 self) as [[v|e] self1]; [|reflexivity].
  unfold after_version.
  destruct (PyStr.nonempty v); unfold modify, ret;
    match goal with
    | |- context [send_command ["ID"] 2 ?s] =>
        destruct (send_command ["ID"] 2 s) as [[ids|e] self2]; [|reflexivity]
    end;
    destruct ids as [|c [|d [|ch rest]]]; reflexivity.
Qed.

Lemma caps_after_version_nil self : after_version [] self = self.
Proof. reflexivity. Qed.

Lemma after_id_short id_response self :
  (List.length id_response < 3)%nat -> after_id id_response self = self.
Proof.
  destruct id_response as [|c [|d [|ch rest]]]; simpl; intros H;
    [reflexivity | reflexivity | reflexivity | lia].
Qed.

Lemma identity_of_caps s s' : caps s = caps s' -> identity s = identity s'.
Proof. unfold caps, identity. intros [= _ -> -> -> -> -> ->]. reflexivity. Qed.

Lemma identity_after_version v self : identity (after_version v self) = identity self.
Proof. unfold after_version. destruct (PyStr.nonempty v); reflexivity. Qed.

(** ** Claims about the handshake *)

(** C1, as the claim states it, fails: with the VERSION step timing out
    (an empty token sequence) and the ID step answered, [init] returns
    [True] and the identity fields are set. *)
Lemma init_failed_step_counterexample :
  fst (send_command ["VERSION"] 2
         (__init__ ([idle 0; idle 3] ++ arrive 3 ("ID CharaChorder ONE S2" ++ CRLF))))
  = Ok []
  /\ fst (init (__init__ ([idle 0; idle 3]
                            ++ arrive 3 ("ID CharaChorder ONE S2" ++ CRLF))))
     = Ok true
  /\ company (snd (init (__init__ ([idle 0; idle 3]
                                     ++ arrive 3 ("ID CharaChorder ONE S2" ++ CRLF)))))
     = Some "CharaChorder"
  /\ ~ capabilities_unset
       (snd (init (__init__ ([idle 0; idle 3]
                               ++ arrive 3 ("ID CharaChorder ONE S2" ++ CRLF))))).
Proof.
  repeat split. intros (_ & H & _). discriminate H.
Qed.

(** C1, amended.  [init] returns [False] exactly when one of its two
    [send_command] calls raises.  When neither raises it returns [True],
    also when a step yields the empty token sequence.  A VERSION step that
    yields nothing leaves [version] as it was; an ID step that yields fewer
    than three tokens leaves company, device, chipset, key_count,
    layer_count and profile_count as they were; when both happen on a
    session whose capability fields are unset, they stay unset. *)
Theorem init_tolerates_failed_steps (self : CharaDevice) :
  (fst (init self) = Ok false <->
   (exists e, fst (send_command ["VERSION"] 2 self) = Raised e)
   \/ (exists version_response self1 e,
          send_command ["VERSION"] 2 self = (Ok version_response, self1)
          /\ fst (send_command ["ID"] 2 (after_version version_response self1))
             = Raised e))
  /\ (forall version_response self1 id_response self2,
         send_command ["VERSION"] 2 self = (Ok version_response, self1) ->
         send_command ["ID"] 2 (after_version version_response self1)
         = (Ok id_response, self2) ->
         fst (init self) = Ok true
         /\ (version_response = [] -> version (snd (init self)) = version self)
         /\ ((List.length id_response < 3)%nat ->
             identity (snd (init self)) = identity self)
         /\ (version_response = [] -> (List.length id_response < 3)%nat ->
             caps (snd (init self)) = caps self
             /\ (capabilities_unset self -> capabilities_unset (snd (init self))))).
Proof.
  split.
  - unfold init. rewrite init_body_unfold.
    destruct (send_command ["VERSION"] 2 self) as [[v|e] self1] eqn:Ev; cbn [fst].
    + destruct (send_command ["ID"] 2 (after_version v self1)) as [[ids|e] self2]
        eqn:Ei; cbn [fst].
      * split; [discriminate|].
        intros [[e H] | (v' & s' & e & [= <- <-] & H)]; [discriminate|].
        rewrite Ei in H. discriminate.
      * split; [|reflexivity]. intros _. right. exists v, self1, e.
        rewrite Ei. split; reflexivity.
    + split; [|reflexivity]. intros _. left. exists e. reflexivity.
  - intros v self1 ids self2 Hv Hi.
    assert (Hinit : init self = (Ok true, after_id ids self2))
      by (unfold init; rewrite init_body_unfold, Hv, Hi; reflexivity).
    pose proof (preserves_send_command ["VERSION"] 2%Q self) as Hc1.
    pose proof (preserves_send_command ["ID"] 2%Q (after_version v self1)) as Hc2.
    rewrite Hv in Hc1. rewrite Hi in Hc2. cbn [snd] in Hc1, Hc2.
    rewrite Hinit. cbn [fst snd].
    split; [reflexivity|]. split; [|split].
    + intros ->. rewrite caps_after_version_nil in Hc2.
      assert (Hver : forall s s', caps s = caps s' -> version s = version s')
        by (unfold caps; intros s s' [= -> _]; reflexivity).
      destruct ids as [|c [|d [|ch rest]]]; cbn [after_id set_identity version];
        rewrite (Hver _ _ Hc2); apply Hver, Hc1.
    + intros Hshort. rewrite after_id_short by assumption.
      rewrite (identity_of_caps _ _ Hc2), identity_after_version.
      apply identity_of_caps, Hc1.
    + intros -> Hshort. rewrite after_id_short by assumption.
      rewrite caps_after_version_nil in Hc2.
      assert (Hcaps : caps self2 = caps self) by congruence.
      split; [exact Hcaps|].
      unfold capabilities_unset. unfold caps in Hcaps.
      injection Hcaps as -> -> -> -> -> -> ->. auto.
Qed.

Lemma init_tolerates_failed_steps_witness :
  fst (init (__init__ [idle 0; idle 3])) = Ok true
  /\ capabilities_unset (snd (init (__init__ [idle 0; idle 3])))
  /\ fst (init (__init__ [ {| now := 0; port := Fault |} ])) = Ok false.
Proof.
  destruct (proj2 (init_tolerates_failed_steps (__init__ [idle 0; idle 3]))
              [] (snd (send_command ["VERSION"] 2 (__init__ [idle 0; idle 3])))
              [] (snd (init (__init__ [idle 0; idle 3])))
              eq_refl eq_refl)
    as (Htrue & _ & _ & Hboth).
  split; [exact Htrue|]. split.
  - apply (proj2 (Hboth eq_refl ltac:(simpl; lia))).
    repeat split.
  - apply (proj1 (init_tolerates_failed_steps
                    (__init__ [ {| now := 0; port := Fault |} ]))).
    left. exists SerialException. reflexivity.
Defined.

(** ** The capability fields over a session's life *)

Lemma invariant_of_caps s s' :
  caps s = caps s' -> capability_invariant s -> capability_invariant s'.
Proof.
  unfold caps, capability_invariant, identity_atomic.
  intros [= Hv Hc Hd Hch Hk Hl Hp].
  rewrite Hv, Hc, Hd, Hch, Hk, Hl, Hp. auto.
Qed.

Lemma invariant_preserved {A} (m : M A) self :
  preserves_caps m -> capability_invariant self -> capability_invariant (snd (m self)).
Proof.
  intros Hm. apply invariant_of_caps. symmetry. apply Hm.
Qed.

Lemma invariant_after_version v self :
  capability_invariant self -> capability_invariant (after_version v self).
Proof.
  unfold after_version. destruct (PyStr.nonempty v); [|auto].
  intros [Hid _]. split; [exact Hid|]. cbn [set_version version]. discriminate.
Qed.

Lemma invariant_after_id ids self :
  capability_invariant self -> capability_invariant (after_id ids self).
Proof.
  destruct ids as [|c [|d [|ch rest]]]; cbn [after_id]; auto.
  intros [Hid Hver].
  assert (Hl : layer_count self = 3 \/ layer_count self = 4)
    by (destruct Hid as [(_ & _ & _ & _ & -> & _) | (? & ? & ? & _ & _ & _ & _ & H & _)];
        auto).
  assert (Hp : profile_count self = 1 \/ profile_count self = 2 \/ profile_count self = 3)
    by (destruct Hid as [(_ & _ & _ & _ & _ & ->) | (? & ? & ? & _ & _ & _ & _ & _ & H)];
        auto).
  split.
  - right. exists c, d, ch.
    cbn [set_identity company device chipset key_count layer_count profile_count].
    repeat split.
    + destruct (version_truthy self && _version_gte self "2.2.0-beta.20");
        [destruct (String.eqb ch "M0"); auto | exact Hl].
    + destruct (version_truthy self && _version_gte self "2.2.0-beta.4");
        [destruct (String.eqb ch "M0"); auto | exact Hp].
  - cbn [set_identity version layer_count profile_count]. intros Hnone.
    unfold version_truthy. rewrite Hnone. cbn [andb]. auto.
Qed.

Lemma invariant_init self :
  capability_invariant self -> capability_invariant (snd (init self)).
Proof.
  intros Hinv. unfold init. rewrite init_body_unfold.
  pose proof (invariant_preserved (send_command ["VERSION"] 2) self
                (preserves_send_command _ _) Hinv) as H1.
  destruct (send_command ["VERSION"] 2 self) as [[v|e] self1]; cbn [snd] in *;
    [|exact H1].
  pose proof (invariant_preserved (send_command ["ID"] 2) (after_version v self1)
                (preserves_send_command _ _) (invariant_after_version v _ H1)) as H2.
  destruct (send_command ["ID"] 2 (after_version v self1)) as [[ids|e] self2];
    cbn [snd] in *; [|exact H2].
  apply invariant_after_id, H2.
Qed.

(** C2, as the claim states it, fails: after a run of [init] in which
    VERSION is answered and ID is not, [version] is set while the other
    capability fields are not; later reads see the mixture. *)
Lemma partial_handshake_counterexample :
  fst (init (__init__ (arrive 0 ("VERSION 2.2.0-beta.20" ++ CRLF)))) = Ok true
  /\ version (snd (init (__init__ (arrive 0 ("VERSION 2.2.0-beta.20" ++ CRLF)))))
     = Some "2.2.0-beta.20"
  /\ company (snd (init (__init__ (arrive 0 ("VERSION 2.2.0-beta.20" ++ CRLF)))))
     = None
  /\ ~ (capabilities_unset
          (snd (init (__init__ (arrive 0 ("VERSION 2.2.0-beta.20" ++ CRLF)))))
        \/ capabilities_set
             (snd (init (__init__ (arrive 0 ("VERSION 2.2.0-beta.20" ++ CRLF)))))).
Proof.
  repeat split.
  intros [(H & _) | (_ & H & _)]; [discriminate H | now apply H].
Qed.

(** C2, amended.  At every point of a session's life, whatever the wire
    carried and whichever calls were made, the fields written by the ID
    step are either all at their defaults (company, device, chipset and
    key_count unset, layer_count 3, profile_count 1) or company, device
    and chipset are set together with the key count of that device, with
    layer_count 3 or 4 and profile_count 1, 2 or 3; the two counts leave
    their defaults only once [version] is set.  [version] is written by the
    VERSION step on its own, so it may be set while the others are not. *)
Theorem capability_fields_invariant (self : CharaDevice) :
  reachable self -> capability_invariant self.
Proof.
  induction 1 as [trace | self trace _ IH | self c _ IH].
  - split; [left; repeat split | intros _; split; reflexivity].
  - eapply invariant_of_caps; [|exact IH]. reflexivity.
  - destruct c; cbn [run].
    + apply invariant_init, IH.
    + apply invariant_preserved; [apply preserves_send_command | exact IH].
    + apply invariant_preserved; [apply preserves_get_chord_count | exact IH].
    + apply invariant_preserved; [apply preserves_get_ram_bytes_available | exact IH].
    + apply invariant_preserved; [apply preserves_get_setting | exact IH].
    + apply invariant_preserved; [apply preserves_get_chord | exact IH].
    + apply invariant_preserved; [apply preserves_query_key | exact IH].
    + apply invariant_preserved; [apply preserves_close | exact IH].
Qed.

Lemma capability_fields_invariant_witness :
  capability_invariant
    (run (Call_get_setting 0 16)
       (with_serial (set_incoming (arrive 9 ("VAR B1 5 0" ++ CRLF)))
          (run Call_init
             (__init__ (arrive 0 ("VERSION 2.2.0-beta.20" ++ CRLF)
                          ++ idle 3 :: arrive 3 ("ID CharaChorder ONE M0" ++ CRLF)))))).
Proof.
  apply capability_fields_invariant.
  apply reach_call, reach_wire, reach_call, reach_open.
Defined.

(** ** The real-time key query *)

Lemma send_raw_ignores_timeout command t self :
  _send_raw command (with_serial (set_timeout t) self)
  = (fst (_send_raw command self),
     with_serial (set_timeout t) (snd (_send_raw command self))).
Proof.
  unfold _send_raw. cbn [with_serial set_timeout serial incoming].
  destruct (negb (PyStr.isascii (command ++ CRLF))); [reflexivity|].
  destruct (incoming (serial self)) as [|[n [|b|]] rest]; reflexivity.
Qed.

Lemma read_line_ignores_timeout bound t self :
  _read_line bound (with_serial (set_timeout t) self)
  = (fst (_read_line bound self),
     with_serial (set_timeout t) (snd (_read_line bound self))).
Proof.
  unfold _read_line. cbn [with_serial set_timeout serial incoming].
  destruct (read_loop _ _ _ _) as [r trace']. reflexivity.
Qed.

(** The indefinite mode of [query_key] is its bounded mode with a bound of
    ten seconds. *)
Lemma query_key_none_is_ten_seconds self :
  query_key None self = query_key (Some 10%Q) self.
Proof.
  unfold query_key, query_key_body, assign_timeout, bind.
  change (Qltb 10 0) with false. cbv iota. unfold modify.
  change (read_bound (Some 10%Q)) with 10%Q. change (read_bound None) with 10%Q.
  rewrite !send_raw_ignores_timeout.
  destruct (_send_raw "QRY KEY" self) as [[[]|e] self1]; cbn [fst snd];
    [|reflexivity].
  rewrite !read_line_ignores_timeout.
  destruct (_read_line 10 self1) as [[[response|]|e] self2]; cbn [fst snd];
    try reflexivity.
  destruct (PyStr.truthy response); [|reflexivity].
  destruct (PyStr.split " " response) as [|p0 [|p1 [|p2 ps]]]; try reflexivity.
  destruct (String.eqb p0 "QRY" && String.eqb p1 "KEY"); reflexivity.
Qed.

(** C4.  The code gives up: called without a timeout, on a wire that stays
    silent for eleven seconds and then carries a well-formed answer,
    [query_key] returns [None] although nothing interrupted the transport,
    and leaves the answer unread.  The wait is bounded by the ten seconds
    passed to [_read_line]. *)
Theorem query_key_indefinite_gives_up :
  fst (query_key None
         (__init__ ([idle 0; idle 11] ++ arrive 11 ("QRY KEY 5" ++ CRLF))))
  = Ok None
  /\ incoming (serial (snd (query_key None
         (__init__ ([idle 0; idle 11] ++ arrive 11 ("QRY KEY 5" ++ CRLF))))))
     = idle 11 :: arrive 11 ("QRY KEY 5" ++ CRLF)
  /\ fst (query_key None
            (__init__ ([idle 0; idle 9] ++ arrive 9 ("QRY KEY 5" ++ CRLF))))
     = Ok (Some 5)
  /\ read_bound None = 10%Q.
Proof. repeat split. Qed.

(** * Further properties of the line reader and the protocol engine *)

Lemma read_loop_without_line_feed timeout start trace : forall buffer,
  Forall no_line_feed trace ->
  fst (read_loop timeout start trace buffer) = Ok None.
Proof.
  induction trace as [|t rest IH]; intros buffer H; cbn [read_loop]; [reflexivity|].
  inversion H as [|? ? [Hf Hlf] Hrest]; subst.
  destruct (Qltb (now t - start) timeout); [|reflexivity].
  destruct (port t) as [|b|]; [now apply IH | | now elim Hf].
  destruct (Ascii.eqb b LF) eqn:E.
  - apply Ascii.eqb_eq in E. subst b. now elim Hlf.
  - destruct (Ascii.eqb b CR); now apply IH.
Qed.

(** X1. A transport that never shows a line feed (and does not fail) makes
    [_read_line] return [None], whatever else arrives and whatever the
    timeout. *)
Theorem read_line_without_line_feed (timeout : Q) (self : CharaDevice) :
  Forall no_line_feed (incoming (serial self)) ->
  fst (_read_line timeout self) = Ok None.
Proof.
  intros H. unfold _read_line.
  pose proof (read_loop_without_line_feed timeout
                match incoming (serial self) with t :: _ => now t | [] => 0%Q end
                (incoming (serial self)) [] H) as E.
  destruct (read_loop _ _ _ _) as [r trace']. exact E.
Qed.

Lemma read_line_without_line_feed_witness :
  fst (_read_line 2 (__init__ (idle 0 :: arrive 1 "VERSION 2.2.0"))) = Ok None.
Proof.
  apply read_line_without_line_feed.
  repeat constructor; discriminate.
Defined.

Lemma Qltb_ge x y : (y <= x)%Q -> Qltb x y = false.
Proof.
  intros H. unfold Qltb. apply Qle_bool_iff in H. now rewrite H.
Qed.

(** X2. With a timeout that is zero or negative [_read_line] returns
    [None] at once and takes nothing from the wire, even when a complete
    line is waiting. *)
Theorem read_line_nonpositive_timeout (timeout : Q) (self : CharaDevice) :
  (timeout <= 0)%Q ->
  fst (_read_line timeout self) = Ok None
  /\ incoming (serial (snd (_read_line timeout self))) = incoming (serial self).
Proof.
  intros H. unfold _read_line.
  destruct (incoming (serial self)) as [|t rest] eqn:E; cbn [read_loop].
  - split; reflexivity.
  - rewrite Qltb_ge; [split; reflexivity|].
    assert (Ez : (now t - now t == 0)%Q) by (unfold Qminus; apply Qplus_opp_r).
    now rewrite Ez.
Qed.

Lemma read_line_nonpositive_timeout_witness :
  fst (_read_line 0 (__init__ (arrive 0 ("RAM 5" ++ CRLF)))) = Ok None
  /\ incoming (serial (snd (_read_line 0 (__init__ (arrive 0 ("RAM 5" ++ CRLF))))))
     = arrive 0 ("RAM 5" ++ CRLF).
Proof.
  apply (read_line_nonpositive_timeout 0 (__init__ (arrive 0 ("RAM 5" ++ CRLF)))).
  apply Qle_refl.
Defined.

(** ** What a returned line looks like *)

Lemma read_loop_buffer timeout start trace : forall buffer line trace',
  read_loop timeout start trace buffer = (Ok (Some line), trace') ->
  Forall (fun c => c <> CR /\ c <> LF) buffer ->
  exists buffer', Forall (fun c => c <> CR /\ c <> LF) buffer'
                  /\ line = PyStr.strip (decode_ascii_ignore buffer').
Proof.
  induction trace as [|t rest IH]; intros buffer line trace' H Hb;
    cbn [read_loop] in H; [discriminate|].
  destruct (Qltb (now t - start) timeout); [|discriminate].
  destruct (port t) as [|b|]; [eauto | | discriminate].
  destruct (Ascii.eqb b LF) eqn:Elf.
  - destruct (PyStr.truthy (PyStr.strip (decode_ascii_ignore buffer))); [|eauto].
    injection H as <- _. eauto.
  - destruct (Ascii.eqb b CR) eqn:Ecr; [eauto|].
    apply (IH _ _ _ H). apply Forall_app. split; [exact Hb|].
    constructor; [|constructor].
    split; [now apply Ascii.eqb_neq | now apply Ascii.eqb_neq].
Qed.

(** X3. A line that [_read_line] returns holds only 7-bit characters, no
    CR and no LF, and neither starts nor ends with white space. *)
Theorem read_line_clean (timeout : Q) (self self' : CharaDevice) (line : string) :
  _read_line timeout self = (Ok (Some line), self') ->
  Forall line_char (list_ascii_of_string line)
  /\ (forall c rest, list_ascii_of_string line = c :: rest -> PyStr.isspace c = false)
  /\ (forall front c, list_ascii_of_string line = (front ++ [c])%list ->
                      PyStr.isspace c = false).
Proof.
  intros H. unfold _read_line in H.
  destruct (read_loop _ _ _ _) as [r trace'] eqn:E.
  injection H as -> _.
  destruct (read_loop_buffer _ _ _ _ _ _ E (Forall_nil _)) as (buffer & Hb & ->).
  unfold PyStr.strip, decode_ascii_ignore.
  rewrite !list_ascii_of_string_of_list_ascii.
  split; [|split].
  - apply strip_chars_Forall. apply Forall_forall. intros c Hin.
    apply filter_In in Hin as [Hin Hlt].
    rewrite Forall_forall in Hb. destruct (Hb c Hin) as [Hcr Hlf].
    apply Z.ltb_lt in Hlt. repeat split; assumption.
  - apply strip_chars_first.
  - apply strip_chars_last.
Qed.

Lemma read_line_clean_witness :
  Forall line_char (list_ascii_of_string "RAM 5").
Proof.
  apply (read_line_clean 2 (__init__ (arrive 0 ("  RAM 5 " ++ CRLF)))
           (__init__ []) "RAM 5").
  reflexivity.
Defined.

(** ** Commands on a wire that does not fail *)

Lemma read_loop_sound timeout start trace : forall buffer,
  Forall sound trace ->
  (exists r, fst (read_loop timeout start trace buffer) = Ok r)
  /\ Forall sound (snd (read_loop timeout start trace buffer)).
Proof.
  induction trace as [|t rest IH]; intros buffer H; cbn [read_loop].
  - split; [eexists; reflexivity | constructor].
  - inversion H as [|? ? Ht Hrest]; subst.
    destruct (Qltb (now t - start) timeout);
      [|split; [eexists; reflexivity | exact H]].
    destruct (port t) as [|b|] eqn:Ep; [now apply IH | | now elim Ht].
    destruct (Ascii.eqb b LF).
    + destruct (PyStr.truthy (PyStr.strip (decode_ascii_ignore buffer)));
        [split; [eexists; reflexivity | exact Hrest] | now apply IH].
    + destruct (Ascii.eqb b CR); now apply IH.
Qed.

Lemma isascii_join parts :
  PyStr.isascii (PyStr.join " " parts) = forallb PyStr.isascii parts.
Proof.
  unfold PyStr.join. induction parts as [|p parts IH]; [reflexivity|].
  destruct parts as [|q parts].
  - cbn [concat forallb]. now rewrite andb_true_r.
  - change (concat " " (p :: q :: parts))
      with (p ++ String " " (concat " " (q :: parts))).
    rewrite isascii_append. cbn [forallb] in *. f_equal.
    change (String " " (concat " " (q :: parts)))
      with (" " ++ concat " " (q :: parts)).
    rewrite isascii_append. exact IH.
Qed.

Lemma send_command_sound
    (c0 : string) (cs : list string) (timeout : Q) (self : CharaDevice) :
  forallb PyStr.isascii (c0 :: cs) = true ->
  Forall sound (incoming (serial self)) ->
  exists payload self',
    send_command (c0 :: cs) timeout self = (Ok payload, self')
    /\ written (serial self')
       = List.app (written (serial self)) [PyStr.join " " (c0 :: cs) ++ CRLF]
    /\ Forall sound (incoming (serial self')).
Proof.
  intros Hascii Hs. rewrite send_command_unfold.
  set (cmd := PyStr.join " " (c0 :: cs)).
  assert (Hraw : _send_raw cmd self
                 = (Ok tt, with_serial (add_written (cmd ++ CRLF)) self)).
  { rewrite send_raw_ascii by (unfold cmd; now rewrite isascii_join).
    destruct (incoming (serial self)) as [|[n p] rest]; [reflexivity|].
    inversion Hs as [|? ? Ht _]; subst. unfold sound in Ht. cbn [port] in Ht.
    destruct p; [reflexivity | reflexivity | now elim Ht]. }
  rewrite Hraw. unfold _read_line.
  cbn [with_serial add_written serial incoming].
  set (start := match incoming (serial self) with t :: _ => now t | [] => 0%Q end).
  destruct (read_loop_sound timeout start (incoming (serial self)) [] Hs)
    as [[r Hr] Hleft].
  destruct (read_loop timeout start (incoming (serial self)) []) as [r' trace'].
  cbn [fst snd] in Hr, Hleft. subst r'.
  destruct r as [response|].
  - rewrite parse_response_payload. eexists; eexists.
    split; [reflexivity|]. split; [reflexivity | exact Hleft].
  - eexists; eexists. split; [reflexivity|]. split; [reflexivity | exact Hleft].
Qed.

(** X4. On a wire that does not fail, [send_command] with at least one
    command part, all parts 7-bit text, does not raise, writes exactly one
    line, the parts joined by blanks and closed by CR LF, and leaves a
    wire that does not fail either.  With a character above 127 in any
    part it raises [UnicodeEncodeError] and touches neither the wire nor
    the session. *)
Theorem send_command_on_sound_wire
    (c0 : string) (cs : list string) (timeout : Q) (self : CharaDevice) :
  (forallb PyStr.isascii (c0 :: cs) = true ->
   Forall sound (incoming (serial self)) ->
   exists payload self',
     send_command (c0 :: cs) timeout self = (Ok payload, self')
     /\ written (serial self')
        = List.app (written (serial self)) [PyStr.join " " (c0 :: cs) ++ CRLF]
     /\ Forall sound (incoming (serial self')))
  /\ (forallb PyStr.isascii (c0 :: cs) = false ->
      send_command (c0 :: cs) timeout self = (Raised UnicodeEncodeError, self)).
Proof.
  split; [apply send_command_sound|].
  intros H. rewrite send_command_unfold. unfold _send_raw.
  rewrite isascii_append, isascii_join, H. reflexivity.
Qed.

Lemma send_command_on_sound_wire_witness :
  (exists payload self',
      send_command ["ID"] 2 (__init__ (arrive 0 ("ID CC ONE M0" ++ CRLF)))
      = (Ok payload, self')
      /\ written (serial self') = ["ID" ++ CRLF])
  /\ send_command ["VAR"; String "233" ""] 2 (__init__ [])
     = (Raised UnicodeEncodeError, __init__ []).
Proof.
  split.
  - destruct (proj1 (send_command_on_sound_wire "ID" [] 2
                       (__init__ (arrive 0 ("ID CC ONE M0" ++ CRLF)))))
      as (payload & self' & Hrun & Hw & _).
    + reflexivity.
    + repeat constructor; discriminate.
    + exists payload, self'. split; [exact Hrun | exact Hw].
  - apply (proj2 (send_command_on_sound_wire "VAR" [String "233" ""] 2 (__init__ []))).
    reflexivity.
Defined.

(** ** Which exceptions get through *)

Lemma only_serial_ret {A} (a : A) : only_serial (ret a).
Proof. intros self e H. discriminate H. Qed.

Lemma only_serial_modify f : only_serial (modify f).
Proof. intros self e H. discriminate H. Qed.

Lemma only_serial_bind {A B} (m : M A) (k : A -> M B) :
  only_serial m -> (forall a, only_serial (k a)) -> only_serial (bind m k).
Proof.
  intros Hm Hk self e. unfold bind. specialize (Hm self).
  destruct (m self) as [[a|e'] self1]; cbn [fst] in *.
  - apply Hk.
  - intros [= <-]. now apply Hm.
Qed.

Lemma only_serial_send_raw command :
  PyStr.isascii command = true -> only_serial (_send_raw command).
Proof.
  intros Hascii self e. rewrite send_raw_ascii by exact Hascii.
  destruct (incoming (serial self)) as [|[n [|b|]] rest]; cbn [fst];
    try discriminate. now intros [= <-].
Qed.

Lemma read_loop_raises timeout start trace : forall buffer e,
  fst (read_loop timeout start trace buffer) = Raised e -> e = SerialException.
Proof.
  induction trace as [|t rest IH]; intros buffer e; cbn [read_loop];
    [discriminate|].
  destruct (Qltb (now t - start) timeout); [|discriminate].
  destruct (port t) as [|b|]; [apply IH | | now intros [= <-]].
  destruct (Ascii.eqb b LF).
  - destruct (PyStr.truthy _); [discriminate | apply IH].
  - destruct (Ascii.eqb b CR); apply IH.
Qed.

Lemma only_serial_read_line timeout : only_serial (_read_line timeout).
Proof.
  intros self e. unfold _read_line.
  pose proof (read_loop_raises timeout
                match incoming (serial self) with t :: _ => now t | [] => 0%Q end
                (incoming (serial self)) [] e) as H.
  destruct (read_loop _ _ _ _) as [r trace']. exact H.
Qed.

Lemma only_serial_send_command c0 cs timeout :
  forallb PyStr.isascii (c0 :: cs) = true ->
  only_serial (send_command (c0 :: cs) timeout).
Proof.
  intros Hascii. unfold send_command.
  apply only_serial_bind;
    [apply only_serial_send_raw; now rewrite isascii_join | intros _].
  apply only_serial_bind; [apply only_serial_read_line | intros [response|]].
  - intros self e. rewrite parse_response_payload. discriminate.
  - apply only_serial_ret.
Qed.

Create HintDb serial.
#[local] Hint Resolve only_serial_ret only_serial_modify
  only_serial_read_line : serial.

Ltac serial_only :=
  repeat first
    [ progress auto with serial
    | apply only_serial_bind; [|intros ?]
    | match goal with
      | |- only_serial (match ?x with _ => _ end) => destruct x
      | |- only_serial (if ?x then _ else _) => destruct x
      end ].

(** What [f"{n:X}"] and [str(n)] give is 7-bit text. *)
Lemma hex_digit_ascii d : (PyStr.ord (PyInt.hex_digit d) <? 128) = true.
Proof.
  unfold PyInt.hex_digit. generalize (Z.to_nat d) as k. intros k.
  do 16 (destruct k as [|k]; [reflexivity|]). destruct k; reflexivity.
Qed.

Lemma digits_ascii base n : PyStr.isascii (PyInt.digits_of_nonneg base n) = true.
Proof.
  unfold PyInt.digits_of_nonneg, PyStr.isascii.
  rewrite list_ascii_of_string_of_list_ascii. apply forallb_forall.
  intros c Hc. apply in_rev in Hc. apply in_map_iff in Hc as (d & <- & _).
  apply hex_digit_ascii.
Qed.

Lemma format_X_ascii n : PyStr.isascii (PyInt.format_X n) = true.
Proof.
  unfold PyInt.format_X, PyInt.hex_of_nonneg.
  destruct (n <? 0); [|apply digits_ascii].
  change (String "-" (PyInt.digits_of_nonneg 16 (- n)))
    with ("-" ++ PyInt.digits_of_nonneg 16 (- n)).
  now rewrite isascii_append, digits_ascii.
Qed.

Lemma str_ascii n : PyStr.isascii (PyInt.str n) = true.
Proof.
  unfold PyInt.str.
  destruct (n <? 0); [|apply digits_ascii].
  change (String "-" (PyInt.digits_of_nonneg 10 (- n)))
    with ("-" ++ PyInt.digits_of_nonneg 10 (- n)).
  now rewrite isascii_append, digits_ascii.
Qed.

Lemma assign_timeout_raises t self e :
  fst (assign_timeout t self) = Raised e ->
  e = ValueError /\ exists q, t = Some q /\ (q < 0)%Q.
Proof.
  unfold assign_timeout. destruct t as [q|]; [|discriminate].
  destruct (Qltb q 0) eqn:E; [|discriminate].
  intros [= <-]. split; [reflexivity|]. exists q. split; [reflexivity|].
  now apply Qltb_lt.
Qed.

(** X5. [get_chord_count], [get_ram_bytes_available], [get_setting] and
    [get_chord] (for an index Python will print, below 10^4300 in size)
    let no exception through but the transport's: none of them raises
    [IndexError] or [UnicodeEncodeError], whatever the device answers.
    [query_key] raises the transport's exception or, exactly when it is
    given a negative timeout, the [ValueError] of the port's timeout
    setter.  [init] raises nothing at all. *)
Theorem facade_raises_only_transport_errors :
  only_serial get_chord_count
  /\ only_serial get_ram_bytes_available
  /\ (forall profile setting_id, only_serial (get_setting profile setting_id))
  /\ (forall index, Z.abs index < 10 ^ 4300 -> only_serial (get_chord index))
  /\ (forall timeout self e,
         fst (query_key timeout self) = Raised e ->
         e = SerialException
         \/ (e = ValueError /\ exists q, timeout = Some q /\ (q < 0)%Q))
  /\ (forall q self, (q < 0)%Q -> fst (query_key (Some q) self) = Raised ValueError)
  /\ (forall self, exists b, fst (init self) = Ok b).
Proof.
  split; [|split; [|split; [|split; [|split; [|split]]]]].
  - unfold get_chord_count.
    pose proof (only_serial_send_command "CML" ["C0"] 2 eq_refl). serial_only.
  - unfold get_ram_bytes_available.
    pose proof (only_serial_send_command "RAM" [] 2 eq_refl). serial_only.
  - intros profile setting_id. unfold get_setting.
    assert (only_serial
              (send_command ["VAR"; "B1"; PyInt.format_X (setting_id + profile * 256)] 2))
      by (apply only_serial_send_command; cbn [forallb];
          now rewrite format_X_ascii).
    serial_only.
  - intros index _. unfold get_chord.
    assert (only_serial (send_command ["CML"; "C1"; PyInt.str index] 2))
      by (apply only_serial_send_command; cbn [forallb]; now rewrite str_ascii).
    serial_only.
  - intros timeout self e. unfold query_key, query_key_body, bind.
    pose proof (assign_timeout_raises timeout self) as Hassign.
    destruct (assign_timeout timeout self) as [[[]|e0] self0]; cbn [fst] in *.
    + pose proof (only_serial_send_raw "QRY KEY" eq_refl self0) as Hraw.
      destruct (_send_raw "QRY KEY" self0) as [[[]|e1] self1]; cbn [fst] in *.
      * pose proof (only_serial_read_line (read_bound timeout) self1) as Hread.
        destruct (_read_line (read_bound timeout) self1) as [[[response|]|e2] self2];
          cbn [fst] in *.
        -- repeat match goal with
                  | |- context [if ?c then _ else _] => destruct c
                  | |- context [match ?l with [] => _ | _ :: _ => _ end] => destruct l
                  end; discriminate.
        -- discriminate.
        -- intros [= <-]. left. now apply Hread.
      * intros [= <-]. left. now apply Hraw.
    + intros [= <-]. right. now apply Hassign.
  - intros q self Hq. unfold query_key, query_key_body, bind, assign_timeout.
    apply Qltb_lt in Hq. rewrite Hq. reflexivity.
  - intros self. unfold init.
    destruct (init_body self) as [[b|e] self']; eexists; reflexivity.
Qed.

Lemma facade_raises_only_transport_errors_witness :
  fst (get_chord 3 (__init__ [ {| now := 0; port := Fault |} ]))
  = Raised SerialException
  /\ SerialException = SerialException
  /\ fst (query_key (Some (-1)%Q) (__init__ [])) = Raised ValueError.
Proof.
  split; [reflexivity|]. split.
  - apply (proj1 (proj2 (proj2 (proj2 facade_raises_only_transport_errors))) 3
             ltac:(vm_compute; reflexivity)
             (__init__ [ {| now := 0; port := Fault |} ]) SerialException).
    reflexivity.
  - apply (proj1 (proj2 (proj2 (proj2 (proj2 (proj2
             facade_raises_only_transport_errors)))))).
    reflexivity.
Defined.

(** ** Echo and payload *)

Lemma split_at_separator sep a : forall b,
  (forall c, In c (list_ascii_of_string a) -> c <> sep) ->
  PyStr.split sep (a ++ String sep b) = a :: PyStr.split sep b.
Proof.
  induction a as [|c a IH]; intros b Hno; cbn [append PyStr.split].
  - now rewrite Ascii.eqb_refl.
  - assert (Hc : Ascii.eqb c sep = false)
      by (apply Ascii.eqb_neq, Hno; left; reflexivity).
    rewrite Hc, IH; [reflexivity|].
    intros c' Hin. apply Hno. right. exact Hin.
Qed.

(** Joining tokens with blanks and splitting on blanks gives the tokens
    back. *)
Lemma split_join parts :
  parts <> [] -> Forall no_blank parts ->
  PyStr.split " " (PyStr.join " " parts) = parts.
Proof.
  unfold PyStr.join.
  induction parts as [|p parts IH]; intros Hne Hall; [congruence|].
  inversion Hall as [|? ? Hp Hrest]; subst.
  destruct parts as [|q parts].
  - cbn [concat]. apply split_no_separator. exact Hp.
  - change (concat " " (p :: q :: parts))
      with (p ++ String " " (concat " " (q :: parts))).
    rewrite split_at_separator by exact Hp.
    rewrite IH; [reflexivity | discriminate | exact Hrest].
Qed.

(** X6. When the device answers with the echo of the command's first part
    (of its first two parts, for a command of two or more) followed by
    payload tokens, [send_command] returns exactly the payload tokens, in
    order. *)
Theorem send_command_returns_payload
    (self self1 self2 : CharaDevice) (c0 : string) (cs payload : list string)
    (timeout : Q) :
  Forall no_blank (c0 :: cs) -> Forall no_blank payload ->
  _send_raw (PyStr.join " " (c0 :: cs)) self = (Ok tt, self1) ->
  _read_line timeout self1
  = (Ok (Some (PyStr.join " " (firstn 2 (c0 :: cs) ++ payload)%list)), self2) ->
  send_command (c0 :: cs) timeout self = (Ok payload, self2).
Proof.
  intros Hcmd Hpay Hsend Hread.
  rewrite send_command_unfold, Hsend, Hread, parse_response_payload.
  rewrite split_join.
  - destruct cs as [|c1 cs']; cbn [firstn app echoed_payload];
      rewrite ?String.eqb_refl; reflexivity.
  - destruct cs; discriminate.
  - apply Forall_app. split; [|exact Hpay].
    inversion Hcmd as [|? ? H0 Hcs]; subst.
    destruct cs as [|c1 cs']; cbn [firstn]; [now constructor|].
    inversion Hcs; subst. repeat constructor; assumption.
Qed.

Lemma send_command_returns_payload_witness :
  send_command ["CML"; "C1"; "7"] 2
    (__init__ (arrive 0 ("CML C1 F00 0041" ++ CRLF)))
  = (Ok ["F00"; "0041"],
     with_serial (add_written ("CML C1 7" ++ CRLF)) (__init__ [])).
Proof.
  apply (send_command_returns_payload
           (__init__ (arrive 0 ("CML C1 F00 0041" ++ CRLF)))
           (with_serial (add_written ("CML C1 7" ++ CRLF))
              (__init__ (arrive 0 ("CML C1 F00 0041" ++ CRLF))))
           _ "CML" ["C1"; "7"] ["F00"; "0041"] 2%Q).
  - repeat constructor; intros c Hin; simpl in Hin;
      repeat destruct Hin as [<- | Hin]; try discriminate; contradiction.
  - repeat constructor; intros c Hin; simpl in Hin;
      repeat destruct Hin as [<- | Hin]; try discriminate; contradiction.
  - reflexivity.
  - reflexivity.
Defined.

(** ** Chords *)

Lemma fold_append_concat more : forall p,
  fold_left String.append more p = String.concat "" (p :: more).
Proof.
  induction more as [|m more IH]; intros p; [reflexivity|].
  cbn [fold_left]. rewrite IH.
  change (concat "" (p :: m :: more)) with (p ++ ("" ++ concat "" (m :: more))).
  cbn [append].
  destruct more as [|m' more'].
  - reflexivity.
  - change (concat "" ((p ++ m) :: m' :: more'))
      with ((p ++ m) ++ ("" ++ concat "" (m' :: more'))).
    change (concat "" (m :: m' :: more'))
      with (m ++ ("" ++ concat "" (m' :: more'))).
    cbn [append]. clear. induction p as [|c p IHp]; cbn [append]; [reflexivity|].
    now rewrite IHp.
Qed.

(** X7. [get_chord] hands back the index it was asked for, and its decoded
    fields always agree with its raw ones: [actions] is the decoding of
    [actions_hex] and [phrase] the decoding of [phrase_hex].  With two or
    more payload tokens the first is the action word and the phrase is all
    others concatenated; with fewer the chord is blank. *)
Theorem get_chord_result (index : Z) (self : CharaDevice) :
  (forall chord self',
      get_chord index self = (Ok chord, self') ->
      chord_index chord = index
      /\ actions chord = _parse_chord_actions (actions_hex chord)
      /\ phrase chord = _parse_phrase (phrase_hex chord))
  /\ (forall a p more self',
         send_command ["CML"; "C1"; PyInt.str index] 2 self
         = (Ok (a :: p :: more), self') ->
         exists chord,
           get_chord index self = (Ok chord, self')
           /\ actions_hex chord = a
           /\ phrase_hex chord = String.concat "" (p :: more))
  /\ (forall payload self',
         send_command ["CML"; "C1"; PyInt.str index] 2 self = (Ok payload, self') ->
         (List.length payload < 2)%nat ->
         exists chord,
           get_chord index self = (Ok chord, self')
           /\ actions_hex chord = "" /\ actions chord = []
           /\ phrase_hex chord = "" /\ phrase chord = []).
Proof.
  split; [|split].
  - intros chord self'. unfold get_chord, bind.
    destruct (send_command _ _ self) as [[payload|e] self1]; [|discriminate].
    destruct payload as [|a [|p more]]; cbn; intros [= <- _];
      repeat split; reflexivity.
  - intros a p more self' H. unfold get_chord, bind. rewrite H. cbn.
    eexists. split; [reflexivity|]. split; [reflexivity|].
    cbn [phrase_hex]. apply fold_append_concat.
  - intros payload self' H Hlen. unfold get_chord, bind. rewrite H.
    destruct payload as [|a [|p more]]; [| |simpl in Hlen; lia];
      cbn; eexists; repeat split; reflexivity.
Qed.

Lemma get_chord_result_witness :
  exists chord,
    get_chord 7 (__init__ (arrive 0 ("CML C1 F00 0041 0062" ++ CRLF)))
    = (Ok chord, with_serial (add_written ("CML C1 7" ++ CRLF)) (__init__ []))
    /\ actions_hex chord = "F00"
    /\ phrase_hex chord = "00410062".
Proof.
  apply (proj1 (proj2 (get_chord_result 7
                         (__init__ (arrive 0 ("CML C1 F00 0041 0062" ++ CRLF)))))
           "F00" "0041" ["0062"]).
  reflexivity.
Defined.

(** ** The timeout of [query_key] *)

Lemma written_send_raw command self :
  PyStr.isascii command = true ->
  (fst (_send_raw command self) = Ok tt
   /\ written (serial (snd (_send_raw command self)))
      = List.app (written (serial self)) [command ++ CRLF])
  \/ (fst (_send_raw command self) = Raised SerialException
      /\ written (serial (snd (_send_raw command self))) = written (serial self)).
Proof.
  intros Hascii. rewrite send_raw_ascii by exact Hascii.
  destruct (incoming (serial self)) as [|[n [|b|]] rest]; cbn; auto.
Qed.

Lemma written_read_line bound self :
  written (serial (snd (_read_line bound self))) = written (serial self).
Proof.
  unfold _read_line. destruct (read_loop _ _ _ _) as [r trace']. reflexivity.
Qed.

(** [query_key] once the port has taken the timeout. *)
Lemma query_key_accepted t self :
  (forall q, t = Some q -> Qltb q 0 = false) ->
  query_key_body t self
  = (modify (with_serial (set_timeout t)) ;;;
     _send_raw "QRY KEY" ;;;
     response <- _read_line (read_bound t) ;;
     match response with
     | Some response =>
         if PyStr.truthy response then
           match PyStr.split " " response with
           | p0 :: p1 :: p2 :: _ =>
               if String.eqb p0 "QRY" && String.eqb p1 "KEY" then ret (PyInt.int p2)
               else ret None
           | _ => ret None
           end
         else ret None
     | None => ret None
     end) self.
Proof.
  intros H. unfold query_key_body, assign_timeout.
  destruct t as [q|]; [|reflexivity].
  now rewrite (H q eq_refl).
Qed.

(** X8. Whatever happens in [query_key], a key code, no answer or an
    exception, the port's read timeout is 2 seconds afterwards and the
    capability fields are untouched.  Given a negative timeout it raises
    [ValueError] with nothing written; otherwise the wire got the one line
    [QRY KEY] or, when the write raised, nothing. *)
Theorem query_key_cleanup (t : option Q) (self : CharaDevice) :
  timeout (serial (snd (query_key t self))) = Some 2%Q
  /\ caps (snd (query_key t self)) = caps self
  /\ (forall q, t = Some q -> (q < 0)%Q ->
        fst (query_key t self) = Raised ValueError
        /\ written (serial (snd (query_key t self))) = written (serial self))
  /\ ((forall q, t = Some q -> ~ (q < 0)%Q) ->
      written (serial (snd (query_key t self)))
      = List.app (written (serial self)) ["QRY KEY" ++ CRLF]
      \/ (fst (query_key t self) = Raised SerialException
          /\ written (serial (snd (query_key t self))) = written (serial self))).
Proof.
  split; [|split; [|split]].
  - unfold query_key. destruct (query_key_body t self) as [r self']. reflexivity.
  - apply preserves_query_key.
  - intros q -> Hq. unfold query_key, query_key_body, bind, assign_timeout.
    apply Qltb_lt in Hq. rewrite Hq. split; reflexivity.
  - intros Hok. unfold query_key.
    rewrite query_key_accepted.
    2:{ intros q Hq. specialize (Hok q Hq).
        destruct (Qltb q 0) eqn:E; [|reflexivity].
        apply Qltb_lt in E. contradiction. }
    unfold bind, modify.
    rewrite send_raw_ignores_timeout.
    destruct (written_send_raw "QRY KEY" self eq_refl) as [[Hsent Hw] | [Hraise Hw]].
    + left.
      destruct (_send_raw "QRY KEY" self) as [[[]|e] self1]; cbn [fst snd] in *;
        [|discriminate].
      rewrite read_line_ignores_timeout.
      pose proof (written_read_line (read_bound t) self1) as Hr.
      destruct (_read_line (read_bound t) self1) as [[[response|]|e] self2];
        cbn [fst snd] in *;
        repeat match goal with
               | |- context [if ?c then _ else _] => destruct c
               | |- context [match ?l with [] => _ | _ :: _ => _ end] => destruct l
               end;
        cbn [fst snd ret with_serial set_timeout serial written];
        rewrite Hr, Hw; reflexivity.
    + right.
      destruct (_send_raw "QRY KEY" self) as [[[]|e] self1]; cbn [fst snd] in *;
        [discriminate|].
      injection Hraise as ->. split; [reflexivity | exact Hw].
Qed.

Lemma query_key_cleanup_witness :
  fst (query_key (Some (-1)%Q) (__init__ (arrive 0 ("QRY KEY 5" ++ CRLF))))
  = Raised ValueError
  /\ (written (serial (snd (query_key (Some 1%Q) (__init__ []))))
      = ["QRY KEY" ++ CRLF]
      \/ fst (query_key (Some 1%Q) (__init__ [])) = Raised SerialException).
Proof.
  split.
  - apply (proj1 (proj2 (proj2 (query_key_cleanup (Some (-1)%Q)
                                  (__init__ (arrive 0 ("QRY KEY 5" ++ CRLF))))))
             (-1)%Q eq_refl).
    reflexivity.
  - destruct (proj2 (proj2 (proj2 (query_key_cleanup (Some 1%Q) (__init__ [])))))
      as [Hw | [Hr _]].
    + intros q [= <-]. discriminate.
    + left. exact Hw.
    + right. exact Hr.
Defined.

Lemma query_key_by_bound t1 t2 self :
  (forall q, t1 = Some q -> Qltb q 0 = false) ->
  (forall q, t2 = Some q -> Qltb q 0 = false) ->
  read_bound t1 = read_bound t2 -> query_key t1 self = query_key t2 self.
Proof.
  intros H1 H2 Hb. unfold query_key.
  rewrite !query_key_accepted by assumption.
  unfold bind, modify. rewrite Hb.
  rewrite !send_raw_ignores_timeout.
  destruct (_send_raw "QRY KEY" self) as [[[]|e] self1]; cbn [fst snd];
    [|reflexivity].
  rewrite !read_line_ignores_timeout.
  destruct (_read_line (read_bound t2) self1) as [[[response|]|e] self2];
    cbn [fst snd]; try reflexivity.
  destruct (PyStr.truthy response); [|reflexivity].
  destruct (PyStr.split " " response) as [|p0 [|p1 [|p2 ps]]]; try reflexivity.
  destruct (String.eqb p0 "QRY" && String.eqb p1 "KEY"); reflexivity.
Qed.

(** X9. A timeout of zero does not mean "poll once": [query_key] takes it
    for no timeout at all and waits up to ten seconds, exactly as
    [query_key(10.0)] does. *)
Theorem query_key_zero_timeout (t : Q) (self : CharaDevice) :
  (t == 0)%Q -> query_key (Some t) self = query_key (Some 10%Q) self.
Proof.
  intros H. apply query_key_by_bound.
  - intros q [= <-]. apply Qltb_ge. rewrite H. apply Qle_refl.
  - intros q [= <-]. reflexivity.
  - cbn [read_bound]. apply Qeq_bool_iff in H. now rewrite H.
Qed.

Lemma query_key_zero_timeout_witness :
  fst (query_key (Some 0%Q)
         (__init__ ([idle 0; idle 9] ++ arrive 9 ("QRY KEY 5" ++ CRLF))))
  = Ok (Some 5).
Proof.
  rewrite (query_key_zero_timeout 0
             (__init__ ([idle 0; idle 9] ++ arrive 9 ("QRY KEY 5" ++ CRLF))));
    [reflexivity | reflexivity].
Defined.

(** * Further properties of the capability resolver *)

(** ** What every call keeps *)

Lemma init_keeps (P : CharaDevice -> Prop) :
  (forall s s', caps s = caps s' -> P s -> P s') ->
  (forall v s, P s -> P (after_version v s)) ->
  (forall ids s, P s -> P (after_id ids s)) ->
  forall self, P self -> P (snd (init self)).
Proof.
  intros Hcaps Hver Hid self HP. unfold init. rewrite init_body_unfold.
  pose proof (preserves_send_command ["VERSION"] 2%Q self) as H1.
  destruct (send_command ["VERSION"] 2 self) as [[v|e] self1]; cbn [snd] in *;
    [|eapply Hcaps; [symmetry; exact H1 | exact HP]].
  assert (P1 : P (after_version v self1))
    by (apply Hver; eapply Hcaps; [symmetry; exact H1 | exact HP]).
  pose proof (preserves_send_command ["ID"] 2%Q (after_version v self1)) as H2.
  destruct (send_command ["ID"] 2 (after_version v self1)) as [[ids|e] self2];
    cbn [snd] in *.
  - apply Hid. eapply Hcaps; [symmetry; exact H2 | exact P1].
  - eapply Hcaps; [symmetry; exact H2 | exact P1].
Qed.

Lemma run_keeps (P : CharaDevice -> Prop) :
  (forall s s', caps s = caps s' -> P s -> P s') ->
  (forall v s, P s -> P (after_version v s)) ->
  (forall ids s, P s -> P (after_id ids s)) ->
  forall c self, P self -> P (run c self).
Proof.
  intros Hcaps Hver Hid c self HP.
  assert (Hm : forall A (m : M A), preserves_caps m -> P (snd (m self)))
    by (intros A m Hm; eapply Hcaps; [symmetry; apply Hm | exact HP]).
  destruct c; cbn [run].
  - now apply init_keeps.
  - apply Hm, preserves_send_command.
  - apply Hm, preserves_get_chord_count.
  - apply Hm, preserves_get_ram_bytes_available.
  - apply Hm, preserves_get_setting.
  - apply Hm, preserves_get_chord.
  - apply Hm, preserves_query_key.
  - apply Hm, preserves_close.
Qed.

Lemma reachable_keeps (P : CharaDevice -> Prop) :
  (forall s s', caps s = caps s' -> P s -> P s') ->
  (forall v s, P s -> P (after_version v s)) ->
  (forall ids s, P s -> P (after_id ids s)) ->
  (forall trace, P (__init__ trace)) ->
  forall self, reachable self -> P self.
Proof.
  intros Hcaps Hver Hid Hnew self H.
  induction H as [trace | self trace _ IH | self c _ IH].
  - apply Hnew.
  - eapply Hcaps; [|exact IH]. reflexivity.
  - now apply run_keeps.
Qed.

Lemma caps_fields s s' :
  caps s = caps s' ->
  version s = version s' /\ company s = company s' /\ device s = device s'
  /\ chipset s = chipset s' /\ key_count s = key_count s'
  /\ layer_count s = layer_count s' /\ profile_count s = profile_count s'.
Proof. unfold caps. intros [= -> -> -> -> -> -> ->]. repeat split. Qed.

(** ** The key count *)

Lemma dict_get_key_counts d : In (dict_get key_counts d 90) [7; 67; 90; 256].
Proof.
  unfold key_counts. cbn [dict_get].
  repeat match goal with
         | |- context [String.eqb d ?k] => destruct (String.eqb d k)
         end; simpl; auto 10.
Qed.

(** X10. Throughout a session's life [key_count] is either unset or one of
    7, 67, 90 and 256; a device name the table does not list gets 90. *)
Theorem key_count_in_table (self : CharaDevice) :
  reachable self ->
  (key_count self = None
   \/ exists k, key_count self = Some k /\ In k [7; 67; 90; 256])
  /\ (forall d, ~ In d (map fst key_counts) -> dict_get key_counts d 90 = 90).
Proof.
  intros Hreach. split.
  - revert self Hreach. apply reachable_keeps.
    + intros s s' Hc. apply caps_fields in Hc as (_ & _ & _ & _ & <- & _). auto.
    + intros v s H. unfold after_version. destruct (PyStr.nonempty v); exact H.
    + intros ids s H. destruct ids as [|c [|d [|ch rest]]]; cbn [after_id]; auto.
      right. eexists. split; [reflexivity | apply dict_get_key_counts].
    + intros trace. left. reflexivity.
  - intros d Hd. unfold key_counts in *. cbn [dict_get map fst] in *.
    repeat match goal with
           | |- context [String.eqb d ?k] =>
               destruct (String.eqb_spec d k);
               [exfalso; apply Hd; subst d; simpl; auto 12|]
           end.
    reflexivity.
Qed.

Lemma key_count_in_table_witness :
  (key_count (run Call_init (__init__ (arrive 0 ("VERSION 1.0" ++ CRLF)
                                         ++ idle 3 :: arrive 3 ("ID CC LITE M0" ++ CRLF))))
   = None
   \/ exists k,
       key_count (run Call_init (__init__ (arrive 0 ("VERSION 1.0" ++ CRLF)
                                             ++ idle 3 :: arrive 3 ("ID CC LITE M0" ++ CRLF))))
       = Some k /\ In k [7; 67; 90; 256]).
Proof.
  apply key_count_in_table. apply reach_call, reach_open.
Defined.

(** X11. No call ever clears a capability field: what is set stays set. *)
Theorem capabilities_never_cleared (c : call) (self : CharaDevice) :
  (version self <> None -> version (run c self) <> None)
  /\ (company self <> None -> company (run c self) <> None)
  /\ (device self <> None -> device (run c self) <> None)
  /\ (chipset self <> None -> chipset (run c self) <> None)
  /\ (key_count self <> None -> key_count (run c self) <> None).
Proof.
  repeat split; revert c self; apply run_keeps;
    try (intros s s' Hc; apply caps_fields in Hc as (E1 & E2 & E3 & E4 & E5 & _);
         congruence);
    try (intros v s H; unfold after_version; destruct (PyStr.nonempty v);
         [cbn; try discriminate; exact H | exact H]);
    intros ids s H; destruct ids as [|c [|d [|ch rest]]]; cbn [after_id]; auto;
    cbn; try discriminate; exact H.
Qed.

Lemma capabilities_never_cleared_witness :
  version (run (Call_query_key None)
             (run Call_init (__init__ (arrive 0 ("VERSION 1.0" ++ CRLF))))) <> None.
Proof.
  apply (proj1 (capabilities_never_cleared (Call_query_key None)
                  (run Call_init (__init__ (arrive 0 ("VERSION 1.0" ++ CRLF)))))).
  discriminate.
Defined.

(** ** The handshake when it succeeds *)

(** X12. When the VERSION step yields tokens and the ID step at least
    three, [init] returns [True] with [version] the tokens joined by
    blanks, company, device and chipset the first three ID tokens, and
    [key_count] the table's entry for the device, 90 when it has none. *)
Theorem init_success (self self1 self2 : CharaDevice)
    (version_response : list string) (c d ch : string) (more : list string) :
  version_response <> [] ->
  send_command ["VERSION"] 2 self = (Ok version_response, self1) ->
  send_command ["ID"] 2 (after_version version_response self1)
  = (Ok (c :: d :: ch :: more), self2) ->
  fst (init self) = Ok true
  /\ version (snd (init self)) = Some (PyStr.join " " version_response)
  /\ company (snd (init self)) = Some c
  /\ device (snd (init self)) = Some d
  /\ chipset (snd (init self)) = Some ch
  /\ key_count (snd (init self)) = Some (dict_get key_counts d 90).
Proof.
  intros Hne Hv Hi.
  assert (Hinit : init self = (Ok true, set_identity c d ch self2))
    by (unfold init; rewrite init_body_unfold, Hv, Hi; reflexivity).
  pose proof (preserves_send_command ["ID"] 2%Q (after_version version_response self1))
    as Hc.
  rewrite Hi in Hc. cbn [snd] in Hc.
  apply caps_fields in Hc as (Hver & _).
  rewrite Hinit. cbn [fst snd set_identity version company device chipset key_count].
  repeat split. rewrite Hver.
  unfold after_version. destruct version_response; [congruence | reflexivity].
Qed.

Lemma init_success_witness :
  version (snd (init (__init__ (arrive 0 ("VERSION 2.2.0 rc" ++ CRLF)
                                  ++ idle 3 :: arrive 3 ("ID CC T4G S2 x" ++ CRLF)))))
  = Some "2.2.0 rc"
  /\ key_count (snd (init (__init__ (arrive 0 ("VERSION 2.2.0 rc" ++ CRLF)
                                       ++ idle 3 :: arrive 3 ("ID CC T4G S2 x" ++ CRLF)))))
     = Some 7.
Proof.
  destruct (init_success
              (__init__ (arrive 0 ("VERSION 2.2.0 rc" ++ CRLF)
                           ++ idle 3 :: arrive 3 ("ID CC T4G S2 x" ++ CRLF)))
              (snd (send_command ["VERSION"] 2
                      (__init__ (arrive 0 ("VERSION 2.2.0 rc" ++ CRLF)
                                   ++ idle 3 :: arrive 3 ("ID CC T4G S2 x" ++ CRLF)))))
              (snd (send_command ["ID"] 2
                      (after_version ["2.2.0"; "rc"]
                         (snd (send_command ["VERSION"] 2
                                 (__init__ (arrive 0 ("VERSION 2.2.0 rc" ++ CRLF)
                                              ++ idle 3
                                              :: arrive 3 ("ID CC T4G S2 x" ++ CRLF))))))))
              ["2.2.0"; "rc"] "CC" "T4G" "S2" ["x"])
    as (_ & Hver & _ & _ & _ & Hkey).
  - discriminate.
  - reflexivity.
  - reflexivity.
  - split; [exact Hver | exact Hkey].
Defined.

(** ** The two firmware thresholds *)

Lemma thresholds_coincide v :
  version_gte v "2.2.0-beta.4" = version_gte v "2.2.0-beta.20".
Proof. reflexivity. Qed.

(** X13. The comparator drops the pre-release tag, so the thresholds
    [2.2.0-beta.4] and [2.2.0-beta.20] are one and the same gate.  After
    [init] on a fresh session the counts are therefore (profile, layer) =
    (1, 3), or (2, 3) on an M0 chipset, or (3, 4) on any other; never 1 or
    2 profiles with 4 layers, never 3 profiles with 3 layers. *)
Theorem fresh_init_counts (trace : list tick) :
  (forall v, version_gte v "2.2.0-beta.4" = version_gte v "2.2.0-beta.20")
  /\ ((profile_count (snd (init (__init__ trace))) = 1
       /\ layer_count (snd (init (__init__ trace))) = 3)
      \/ (profile_count (snd (init (__init__ trace))) = 2
          /\ layer_count (snd (init (__init__ trace))) = 3
          /\ chipset (snd (init (__init__ trace))) = Some "M0")
      \/ (profile_count (snd (init (__init__ trace))) = 3
          /\ layer_count (snd (init (__init__ trace))) = 4
          /\ exists ch, chipset (snd (init (__init__ trace))) = Some ch
                        /\ ch <> "M0")).
Proof.
  split; [exact thresholds_coincide|].
  unfold init. rewrite init_body_unfold.
  pose proof (preserves_send_command ["VERSION"] 2%Q (__init__ trace)) as H1.
  destruct (send_command ["VERSION"] 2 (__init__ trace)) as [[v|e] self1];
    cbn [snd] in *.
  2:{ apply caps_fields in H1 as (_ & _ & _ & _ & _ & -> & ->). left. split; reflexivity. }
  assert (D1 : layer_count (after_version v self1) = 3
               /\ profile_count (after_version v self1) = 1).
  { apply caps_fields in H1 as (_ & _ & _ & _ & _ & Hl & Hp).
    unfold after_version. destruct (PyStr.nonempty v); cbn; rewrite ?Hl, ?Hp;
      split; reflexivity. }
  pose proof (preserves_send_command ["ID"] 2%Q (after_version v self1)) as H2.
  destruct (send_command ["ID"] 2 (after_version v self1)) as [[ids|e] self2];
    cbn [snd] in *;
    apply caps_fields in H2 as (_ & _ & _ & _ & _ & Hl & Hp);
    destruct D1 as [Dl Dp]; rewrite Dl in Hl; rewrite Dp in Hp.
  2:{ left. split; assumption. }
  destruct ids as [|c [|d [|ch rest]]]; cbn [after_id];
    try (left; split; assumption).
  cbn [set_identity profile_count layer_count chipset].
  unfold _version_gte. destruct (version self2) as [ver|].
  - rewrite <- thresholds_coincide.
    destruct (version_truthy _ && version_gte ver "2.2.0-beta.4").
    + destruct (String.eqb_spec ch "M0") as [-> | Hne].
      * right. left. repeat split.
      * right. right. repeat split. exists ch. split; [reflexivity | exact Hne].
    + left. split; assumption.
  - rewrite !andb_false_r. left. split; assumption.
Qed.

(** ** The comparator on well-formed versions *)

Lemma version_gte_triple a b :
  well_formed_version a -> well_formed_version b ->
  version_gte a b = lex_gte (version_triple a) (version_triple b).
Proof.
  intros Ha Hb. unfold version_gte, version_triple.
  pose proof (Ha 0%nat ltac:(lia)). pose proof (Ha 1%nat ltac:(lia)).
  pose proof (Ha 2%nat ltac:(lia)). pose proof (Hb 0%nat ltac:(lia)).
  pose proof (Hb 1%nat ltac:(lia)). pose proof (Hb 2%nat ltac:(lia)).
  destruct (component (numeric_prefix a) 0) as [a0|] eqn:A0; [|congruence].
  destruct (component (numeric_prefix a) 1) as [a1|] eqn:A1; [|congruence].
  destruct (component (numeric_prefix a) 2) as [a2|] eqn:A2; [|congruence].
  destruct (component (numeric_prefix b) 0) as [b0|] eqn:B0; [|congruence].
  destruct (component (numeric_prefix b) 1) as [b1|] eqn:B1; [|congruence].
  destruct (component (numeric_prefix b) 2) as [b2|] eqn:B2; [|congruence].
  now rewrite (gte_loop_numeric _ _ a0 a1 a2 b0 b1 b2).
Qed.

Lemma lex_gte_spec c0 c1 c2 t0 t1 t2 :
  lex_gte (c0, c1, c2) (t0, t1, t2) = true <->
  c0 > t0 \/ (c0 = t0 /\ (c1 > t1 \/ (c1 = t1 /\ c2 >= t2))).
Proof.
  cbn [lex_gte]. rewrite !Z.gtb_ltb, Z.geb_leb.
  destruct (Z.ltb_spec t0 c0), (Z.ltb_spec c0 t0), (Z.ltb_spec t1 c1),
    (Z.ltb_spec c1 t1), (Z.leb_spec t2 c2); split; intros; try lia; try discriminate;
    reflexivity.
Qed.

(** X14. On versions whose first three components are numeric the
    comparator is a total preorder: any two are comparable, the relation
    is transitive, and two versions that are each greater-or-equal to the
    other carry the same three numbers. *)
Theorem version_gte_total_preorder (a b c : string) :
  well_formed_version a -> well_formed_version b -> well_formed_version c ->
  (version_gte a b = true \/ version_gte b a = true)
  /\ (version_gte a b = true -> version_gte b c = true -> version_gte a c = true)
  /\ (version_gte a b = true -> version_gte b a = true ->
      version_triple a = version_triple b).
Proof.
  intros Ha Hb Hc.
  rewrite !version_gte_triple by assumption.
  destruct (version_triple a) as [[a0 a1] a2].
  destruct (version_triple b) as [[b0 b1] b2].
  destruct (version_triple c) as [[c0 c1] c2].
  rewrite !lex_gte_spec.
  split; [lia|]. split; [lia|].
  intros H1 H2. assert (a0 = b0 /\ a1 = b1 /\ a2 = b2) as (-> & -> & ->) by lia.
  reflexivity.
Qed.

Lemma version_gte_total_preorder_witness :
  version_gte "2.10" "2.9.7-rc" = true \/ version_gte "2.9.7-rc" "2.10" = true.
Proof.
  apply (version_gte_total_preorder "2.10" "2.9.7-rc" "1");
    intros i Hi;
    (assert (i = 0 \/ i = 1 \/ i = 2)%nat as [-> | [-> | ->]] by lia); discriminate.
Defined.

(** X15. The comparator reads three components and no more: versions whose
    dotted prefixes agree on their first three entries compare alike,
    whatever follows, numeric or not. *)
Theorem version_gte_reads_three (a a' b : string) :
  firstn 3 (numeric_prefix a) = firstn 3 (numeric_prefix a') ->
  version_gte a b = version_gte a' b /\ version_gte b a = version_gte b a'.
Proof.
  intros H.
  assert (Hc : forall i, (i < 3)%nat ->
                         component (numeric_prefix a) i = component (numeric_prefix a') i).
  { intros i Hi. unfold component.
    assert (Hf : forall l : list string, nth_error l i = nth_error (firstn 3 l) i).
    { intros l. rewrite nth_error_firstn.
      destruct (Nat.ltb_spec i 3); [reflexivity | lia]. }
    now rewrite (Hf (numeric_prefix a)), (Hf (numeric_prefix a')), H. }
  unfold version_gte. cbn [seq gte_loop].
  rewrite !(Hc 0%nat), !(Hc 1%nat), !(Hc 2%nat) by lia. split; reflexivity.
Qed.

Lemma version_gte_reads_three_witness :
  version_gte "2.2.0.x.9" "2.2.0" = version_gte "2.2.0" "2.2.0".
Proof.
  apply (proj1 (version_gte_reads_three "2.2.0.x.9" "2.2.0" "2.2.0" eq_refl)).
Defined.

(** * Further properties of the chord codec *)

(** ** The action word beyond its twelve slots *)

Lemma field_mod value i :
  0 <= i < 12 -> field (value mod 2 ^ 120) i = field value i.
Proof.
  intros Hi. unfold field. apply Z.bits_inj'. intros m Hm.
  change 1023 with (Z.ones 10).
  rewrite !Z.land_spec, !Z.shiftr_spec, Z.testbit_ones_nonneg by lia.
  destruct (m <? 10) eqn:E.
  - apply Z.ltb_lt in E. rewrite Z.mod_pow2_bits_low by lia. reflexivity.
  - now rewrite !andb_false_r.
Qed.

Lemma decode_actions_spec_mod value :
  decode_actions_spec (value mod 2 ^ 120) = decode_actions_spec value.
Proof.
  unfold decode_actions_spec. do 2 f_equal.
  apply map_ext_in. intros i Hi. apply field_mod.
  unfold range in Hi. apply in_map_iff in Hi as (k & <- & Hk).
  apply in_seq in Hk. lia.
Qed.

(** X16. [_parse_chord_actions] looks at the low 120 bits of the number
    only: two inputs whose numbers agree modulo 2^120 decode alike, so
    anything written above the twelfth slot is ignored. *)
Theorem parse_chord_actions_low_bits (s s' : string) (value value' : Z) :
  PyInt.int16 s = Some value -> PyInt.int16 s' = Some value' ->
  value mod 2 ^ 120 = value' mod 2 ^ 120 ->
  _parse_chord_actions s = _parse_chord_actions s'.
Proof.
  intros Hs Hs' Hmod.
  rewrite (parse_chord_actions_decodes _ _ Hs), (parse_chord_actions_decodes _ _ Hs').
  rewrite <- (decode_actions_spec_mod value), <- (decode_actions_spec_mod value').
  now rewrite Hmod.
Qed.

Lemma parse_chord_actions_low_bits_witness :
  _parse_chord_actions "F00" = _parse_chord_actions "ABC000000000000000000000000000F00".
Proof.
  apply (parse_chord_actions_low_bits "F00" "ABC000000000000000000000000000F00"
           3840 (3840 + 2748 * 2 ^ 120));
    reflexivity.
Defined.

(** ** How far the phrase decoder gets *)

Lemma first_valid_token_width s i v w :
  first_valid_token s i = Some (v, w) ->
  (2 <= w)%nat /\ (i + w <= String.length s)%nat.
Proof.
  unfold first_valid_token, candidate.
  repeat match goal with
         | |- context [(?a <=? ?b)%nat] => destruct (Nat.leb_spec a b)
         | |- context [PyInt.int16 ?x] => destruct (PyInt.int16 x)
         end; intros [= <- <-] || discriminate; lia.
Qed.

Lemma parse_phrase_loop_length s n : forall i gathered,
  (String.length s - i <= n)%nat ->
  (2 * List.length (parse_phrase_loop s i gathered)
   <= 2 * List.length gathered + (String.length s - i))%nat.
Proof.
  induction n as [|n IH]; intros i gathered Hn.
  - rewrite parse_phrase_loop_done by lia. lia.
  - destruct (lt_dec i (String.length s)) as [Hlt|Hge];
      [|rewrite parse_phrase_loop_done by lia; lia].
    rewrite parse_phrase_loop_step, try_lengths_first_valid by exact Hlt.
    destruct (first_valid_token s i) as [[v w]|] eqn:E.
    + apply first_valid_token_width in E as [Hw Hfit].
      etransitivity; [apply IH; lia|]. rewrite length_app. simpl. lia.
    + etransitivity; [apply IH; lia|]. lia.
Qed.

(** X17. Every phrase code costs at least two characters of input: the
    decoded phrase is never longer than half the text, whatever the text
    holds. *)
Theorem parse_phrase_length (hex_str : string) :
  (2 * List.length (_parse_phrase hex_str) <= String.length hex_str)%nat.
Proof.
  unfold _parse_phrase.
  pose proof (parse_phrase_loop_length hex_str (String.length hex_str) 0 []
                ltac:(lia)) as H.
  simpl in H. lia.
Qed.

(** ** The phrase decoder on hexadecimal text *)

Lemma chars_of_substring s : forall i w,
  list_ascii_of_string (String.substring i w s)
  = firstn w (skipn i (list_ascii_of_string s)).
Proof.
  induction s as [|c s IH]; intros [|i] [|w]; cbn; try reflexivity.
  - f_equal. apply (IH 0%nat).
  - apply IH.
  - apply IH.
Qed.

Lemma chars_length s : List.length (list_ascii_of_string s) = String.length s.
Proof. induction s as [|c s IH]; simpl; congruence. Qed.

Lemma hex_value_slice s i w :
  hex_value (PyStr.slice s i w)
  = hex_value_chars (firstn w (skipn i (list_ascii_of_string s))).
Proof. unfold hex_value, PyStr.slice. now rewrite chars_of_substring. Qed.

Lemma parse_phrase_loop_groups s n :
  hex_string s = true ->
  forall i gathered,
    (String.length s - i <= n)%nat -> (i <= String.length s)%nat ->
    parse_phrase_loop s i gathered
    = (gathered ++ hex_groups (skipn i (list_ascii_of_string s)))%list.
Proof.
  intros Hhex. induction n as [|n IH]; intros i gathered Hn Hi.
  - rewrite parse_phrase_loop_done by lia.
    rewrite skipn_all2 by (rewrite chars_length; lia).
    now rewrite app_nil_r.
  - destruct (lt_dec i (String.length s)) as [Hlt|Hge].
    2:{ rewrite parse_phrase_loop_done by lia.
        rewrite skipn_all2 by (rewrite chars_length; lia).
        now rewrite app_nil_r. }
    rewrite parse_phrase_loop_step, try_lengths_first_valid by exact Hlt.
    pose proof (length_skipn i (list_ascii_of_string s)) as Hlen.
    rewrite chars_length in Hlen.
    unfold first_valid_token.
    destruct (skipn i (list_ascii_of_string s)) as [|a [|b [|c [|d rest]]]] eqn:Erem;
      cbn [List.length] in Hlen.
    + lia.
    + (* one character left: nothing fits *)
      unfold candidate.
      repeat match goal with
             | |- context [(?x <=? ?y)%nat] =>
                 destruct (Nat.leb_spec x y); [lia|]
             end.
      rewrite parse_phrase_loop_done by lia. cbn [hex_groups].
      now rewrite app_nil_r.
    + (* two characters left *)
      assert (E4 : candidate s i 4 = None)
        by (unfold candidate; destruct (Nat.leb_spec (i + 4) (String.length s));
            [lia | reflexivity]).
      assert (E3 : candidate s i 3 = None)
        by (unfold candidate; destruct (Nat.leb_spec (i + 3) (String.length s));
            [lia | reflexivity]).
      rewrite E4, E3, candidate_hex by (assumption || lia).
      rewrite parse_phrase_loop_done by lia.
      rewrite hex_value_slice, Erem. reflexivity.
    + (* three characters left *)
      assert (E4 : candidate s i 4 = None)
        by (unfold candidate; destruct (Nat.leb_spec (i + 4) (String.length s));
            [lia | reflexivity]).
      rewrite E4, candidate_hex by (assumption || lia).
      rewrite parse_phrase_loop_done by lia.
      rewrite hex_value_slice, Erem. reflexivity.
    + (* four or more *)
      rewrite candidate_hex by (assumption || lia).
      rewrite IH by lia.
      rewrite hex_value_slice, Erem.
      replace (skipn (i + 4) (list_ascii_of_string s)) with rest.
      * cbn [firstn hex_groups]. now rewrite <- app_assoc.
      * rewrite Nat.add_comm, <- skipn_skipn, Erem. reflexivity.
Qed.

(** X18. On a text of hexadecimal digits [_parse_phrase] reads groups of
    four digits from the left, each as one unsigned code; a last group of
    three or two digits is one more code, and a single digit left over is
    dropped.  So a two- or three-digit code can only ever be the last
    one. *)
Theorem parse_phrase_hex_groups (hex_str : string) :
  hex_string hex_str = true ->
  _parse_phrase hex_str = hex_groups (list_ascii_of_string hex_str).
Proof.
  intros H. unfold _parse_phrase.
  now rewrite (parse_phrase_loop_groups hex_str (String.length hex_str) H 0 [])
    by lia.
Qed.

Lemma parse_phrase_hex_groups_witness :
  _parse_phrase "00410062A" = hex_groups (list_ascii_of_string "00410062A").
Proof.
  apply parse_phrase_hex_groups. reflexivity.
Defined.

Lemma hex_value_chars_bound l : forall acc k,
  forallb is_hex_digit l = true -> 0 <= acc < 16 ^ k -> 0 <= k ->
  0 <= fold_left hex_step l acc < 16 ^ (k + Z.of_nat (List.length l)).
Proof.
  induction l as [|c l IH]; intros acc k Hl Hacc Hk; cbn [fold_left List.length].
  - now rewrite Z.add_0_r.
  - cbn [forallb] in Hl. apply andb_true_iff in Hl as [Hc Hl].
    unfold is_hex_digit in Hc.
    destruct (PyInt.digit_below 16 c) as [d|] eqn:E; [|discriminate].
    apply digit_below_value in E as [Ev Hd].
    assert (H0 : 0 <= d).
    { unfold PyInt.digit_value in Ev.
      repeat match type of Ev with
             | (if ?b then _ else _) = _ =>
                 let B := fresh "B" in destruct b eqn:B;
                 [apply andb_true_iff in B as [B _]; apply Z.leb_le in B|]
             end; inversion Ev; lia. }
    replace (k + Z.of_nat (S (List.length l)))
      with ((k + 1) + Z.of_nat (List.length l)) by lia.
    apply IH; [exact Hl | | lia].
    unfold hex_step. rewrite Ev. rewrite Z.pow_add_r, Z.pow_1_r by lia. lia.
Qed.

Lemma hex_groups_bound n : forall l,
  (List.length l <= n)%nat -> forallb is_hex_digit l = true ->
  Forall (fun v => 0 <= v < 65536) (hex_groups l).
Proof.
  assert (Hb : forall g, forallb is_hex_digit g = true -> (List.length g <= 4)%nat ->
                         0 <= hex_value_chars g < 65536).
  { intros g Hg Hlen. unfold hex_value_chars.
    pose proof (hex_value_chars_bound g 0 0 Hg ltac:(simpl; lia) ltac:(lia)) as H.
    cbn [Z.add] in H.
    assert (16 ^ Z.of_nat (List.length g) <= 16 ^ 4)
      by (apply Z.pow_le_mono_r; lia).
    change (16 ^ 4) with 65536 in *. lia. }
  induction n as [n IH] using lt_wf_ind. intros l Hlen Hl.
  destruct l as [|a [|b [|c [|d rest]]]]; cbn [hex_groups];
    try (constructor; fail).
  - constructor; [apply Hb; [exact Hl | simpl; lia] | constructor].
  - constructor; [apply Hb; [exact Hl | simpl; lia] | constructor].
  - cbn [forallb] in Hl.
    apply andb_true_iff in Hl as [Ha Hl]. apply andb_true_iff in Hl as [Hb' Hl].
    apply andb_true_iff in Hl as [Hc Hl]. apply andb_true_iff in Hl as [Hd Hl].
    constructor.
    + apply Hb; [cbn [forallb]; now rewrite Ha, Hb', Hc, Hd | simpl; lia].
    + apply (IH (List.length rest)); [simpl in Hlen; lia | lia | exact Hl].
Qed.

(** X19. On a text of hexadecimal digits every phrase code lies between 0
    and 65535. *)
Theorem parse_phrase_codes_16_bit (hex_str : string) :
  hex_string hex_str = true ->
  Forall (fun v => 0 <= v < 65536) (_parse_phrase hex_str).
Proof.
  intros H. unfold _parse_phrase.
  rewrite (parse_phrase_loop_groups hex_str (String.length hex_str) H 0 []) by lia.
  eapply hex_groups_bound; [reflexivity | exact H].
Qed.

Lemma parse_phrase_codes_16_bit_witness :
  Forall (fun v => 0 <= v < 65536) (_parse_phrase "FFFF0041ABC").
Proof.
  apply parse_phrase_codes_16_bit. reflexivity.
Defined.

(** ** The composite setting id on the wire *)

Lemma int16_negated_hex h :
  hex_string h = true -> h <> "" ->
  PyInt.int16 (String "-" h) = Some (- hex_value h).
Proof.
  unfold hex_string, PyInt.int16, PyInt.parse, hex_value, hex_value_chars.
  intros H Hne. cbn [list_ascii_of_string].
  destruct (list_ascii_of_string h) as [|c r] eqn:El.
  { destruct h; [congruence | discriminate El]. }
  pose proof H as H'. cbn [forallb] in H'. apply andb_true_iff in H' as [Hc Hr].
  destruct (hex_digit_plain _ Hc) as (Hsp & Hplus & Hminus & Hus & Hx & HX).
  change (PyInt.skip_space ("-"%char :: c :: r)) with ("-"%char :: c :: r).
  cbn [PyInt.take_sign].
  assert (Hpre : PyInt.take_prefix 16 (c :: r) = c :: r).
  { unfold PyInt.take_prefix; simpl.
    destruct r as [|x r']; [destruct c as [[] [] [] [] [] [] [] []]; reflexivity|].
    simpl in Hr. apply andb_true_iff in Hr as [Hxd _].
    destruct (hex_digit_plain _ Hxd) as (_ & _ & _ & _ & Hx' & HX').
    apply Ascii.eqb_neq in Hx', HX'. rewrite Hx', HX'.
    destruct c as [[] [] [] [] [] [] [] []]; reflexivity. }
  rewrite Hpre.
  rewrite (scan_hex_digits (c :: r) 0 H).
  replace (match c with "_"%char => None | _ => _ end)
    with (Some (-1 * fold_left hex_step (c :: r) 0)).
  - f_equal.
  - destruct c as [[] [] [] [] [] [] [] []]; try reflexivity; congruence.
Qed.

Lemma int16_format_X_any n : PyInt.int16 (PyInt.format_X n) = Some n.
Proof.
  destruct (Z.ltb_spec n 0) as [Hneg|Hpos]; [|now apply int16_format_X].
  unfold PyInt.format_X.
  apply Z.ltb_lt in Hneg as E. rewrite E.
  destruct (hex_of_nonneg_spec (- n) ltac:(lia)) as (Hh & Hne & Hv).
  rewrite int16_negated_hex by assumption. rewrite Hv. f_equal. lia.
Qed.

(** X20. On a wire that does not fail [get_setting] writes the one line
    [VAR B1 <id>], where [<id>] read back with [int(_, 16)] is
    [setting_id + profile * 256], for every profile and id, negative ones
    included. *)
Theorem get_setting_sends_composite_id (profile setting_id : Z) (self : CharaDevice) :
  Forall sound (incoming (serial self)) ->
  exists id_hex,
    written (serial (snd (get_setting profile setting_id self)))
    = List.app (written (serial self)) ["VAR B1 " ++ id_hex ++ CRLF]
    /\ PyInt.int16 id_hex = Some (setting_id + profile * 256).
Proof.
  intros Hs. exists (PyInt.format_X (setting_id + profile * 256)).
  split; [|apply int16_format_X_any].
  unfold get_setting, bind.
  destruct (send_command_sound "VAR" ["B1"; PyInt.format_X (setting_id + profile * 256)]
              2 self) as (payload & self' & Hrun & Hw & _);
    [cbn [forallb]; now rewrite format_X_ascii | exact Hs |].
  rewrite Hrun.
  assert (Hpure : forall (m : M (option Z)),
             (forall s, snd (m s) = s) -> written (serial (snd (m self'))) = written (serial self'))
    by (intros m Hm; now rewrite Hm).
  rewrite Hpure; [exact Hw|].
  intros s.
  destruct (PyStr.nonempty payload && (2 <=? List.length payload)%nat);
    [|reflexivity].
  destruct payload as [|v [|status more]]; try reflexivity.
  destruct (String.eqb status "0"); reflexivity.
Qed.

Lemma get_setting_sends_composite_id_witness :
  exists id_hex,
    written (serial (snd (get_setting 2 16 (__init__ [idle 0; idle 3]))))
    = ["VAR B1 " ++ id_hex ++ CRLF]
    /\ PyInt.int16 id_hex = Some 528.
Proof.
  apply (get_setting_sends_composite_id 2 16 (__init__ [idle 0; idle 3])).
  repeat constructor; discriminate.
Defined.

(** * The layout grid *)

Section LayoutGrid.

Import Layout.

Lemma firstn_min_length {A} (k : nat) (l : list A) :
  firstn (Nat.min k (List.length l)) l = firstn k l.
Proof. now rewrite <- firstn_firstn, firstn_all. Qed.

(** A slice that starts at a non-negative index is a window of the
    list. *)
Lemma py_slice_window {A} (l : list A) (a c : Z) :
  0 <= a -> 0 <= c ->
  py_slice l a (a + c) = firstn (Z.to_nat c) (skipn (Z.to_nat a) l)
  /\ py_slice l a (Z.min (a + c) (Z.of_nat (List.length l)))
     = firstn (Z.to_nat c) (skipn (Z.to_nat a) l).
Proof.
  intros Ha Hc. unfold py_slice, clamp.
  set (n := Z.of_nat (List.length l)).
  assert (E1 : (a <? 0) = false) by (apply Z.ltb_ge; lia).
  assert (E2 : (a + c <? 0) = false) by (apply Z.ltb_ge; lia).
  assert (E3 : (Z.min (a + c) n <? 0) = false) by (apply Z.ltb_ge; lia).
  rewrite E1, E2, E3.
  replace (Z.min (Z.min (a + c) n) n) with (Z.min (a + c) n) by lia.
  assert (H : firstn (Z.to_nat (Z.min (a + c) n - Z.min a n))
                (skipn (Z.to_nat (Z.min a n)) l)
              = firstn (Z.to_nat c) (skipn (Z.to_nat a) l)).
  { destruct (Z.le_gt_cases a n) as [Hle|Hgt].
    - replace (Z.min a n) with a by lia.
      rewrite <- (firstn_min_length (Z.to_nat c)). f_equal.
      rewrite length_skipn. lia.
    - replace (Z.min a n) with n by lia.
      replace (Z.min (a + c) n - n) with 0 by lia.
      rewrite (skipn_all2 (n := Z.to_nat a)) by lia.
      now rewrite firstn_nil. }
  split; exact H.
Qed.

Lemma row_codes_at_spec (layer_codes : list Z) (cols row : Z) :
  0 <= cols -> 0 <= row ->
  List.length (row_codes_at layer_codes cols row) = Z.to_nat cols
  /\ forall j, (j < Z.to_nat cols)%nat ->
       nth j (row_codes_at layer_codes cols row) 0
       = nth (Z.to_nat (row * cols) + j) layer_codes 0.
Proof.
  intros Hc Hr. unfold row_codes_at.
  rewrite (proj2 (py_slice_window layer_codes (row * cols) cols ltac:(nia) Hc)).
  set (window := firstn (Z.to_nat cols) (skipn (Z.to_nat (row * cols)) layer_codes)).
  assert (Hlen : (List.length window <= Z.to_nat cols)%nat)
    by (unfold window; rewrite length_firstn; lia).
  assert (Hnth : forall j, (j < Z.to_nat cols)%nat ->
                           nth j window 0 = nth (Z.to_nat (row * cols) + j) layer_codes 0).
  { intros j Hj. unfold window. rewrite nth_firstn.
    destruct (Nat.ltb_spec j (Z.to_nat cols)); [|lia]. apply nth_skipn. }
  destruct (Z.ltb_spec (Z.of_nat (List.length window)) cols) as [Hshort|Hfull].
  - split.
    + rewrite length_app, repeat_length. lia.
    + intros j Hj. rewrite <- Hnth by exact Hj.
      destruct (Nat.lt_ge_cases j (List.length window)) as [Hin|Hout].
      * now rewrite app_nth1.
      * rewrite app_nth2 by lia. rewrite nth_repeat.
        now rewrite nth_overflow.
  - split; [lia | exact Hnth].
Qed.

Lemma nth_range n i : (i < n)%nat -> nth i (range n) 0 = Z.of_nat i.
Proof.
  intros H. unfold range.
  change 0 with (Z.of_nat 0). rewrite map_nth, seq_nth by exact H. reflexivity.
Qed.

Lemma nth_map_range {B} (f : Z -> B) n i d :
  (i < n)%nat -> nth i (map f (range n)) d = f (Z.of_nat i).
Proof.
  intros H.
  rewrite (nth_indep _ d (f 0)) by (rewrite length_map; unfold range;
                                    now rewrite length_map, length_seq).
  now rewrite map_nth, nth_range.
Qed.

Lemma length_range n : List.length (range n) = n.
Proof. unfold range. now rewrite length_map, length_seq. Qed.

(** The grid of [convert_layer_to_names_with_dims] once the layer and the
    dimensions are known. *)
Lemma padded_grid (action_map : list (string * string)) (layer_codes : list Z)
    (rows cols : Z) :
  0 <= cols ->
  let grid := map (fun row => row_names action_map (row_codes_at layer_codes cols row))
                  (range (Z.to_nat rows)) in
  List.length grid = Z.to_nat rows
  /\ (forall i, (i < Z.to_nat rows)%nat ->
                List.length (nth i grid []) = Z.to_nat cols)
  /\ (forall i j, (i < Z.to_nat rows)%nat -> (j < Z.to_nat cols)%nat ->
                  nth j (nth i grid []) "EMPTY"
                  = action_name action_map (nth (i * Z.to_nat cols + j) layer_codes 0)).
Proof.
  intros Hc grid. subst grid. split; [|split].
  - now rewrite length_map, length_range.
  - intros i Hi. rewrite nth_map_range by exact Hi.
    unfold row_names. rewrite length_map.
    apply row_codes_at_spec; lia.
  - intros i j Hi Hj. rewrite nth_map_range by exact Hi.
    unfold row_names.
    change "EMPTY" with (action_name action_map 0). rewrite map_nth.
    rewrite (proj2 (row_codes_at_spec layer_codes cols (Z.of_nat i) Hc ltac:(lia)))
      by exact Hj.
    do 2 f_equal. rewrite Z2Nat.inj_mul, Nat2Z.id by lia. reflexivity.
Qed.


Lemma select_layer_at (layers : list (list Z)) (layer_index : Z) (codes : list Z) :
  0 <= layer_index ->
  nth_error layers (Z.to_nat layer_index) = Some codes ->
  select_layer (Some layers) layer_index = Ok (Some codes).
Proof.
  intros Hi Hn. unfold select_layer.
  assert (Hlt : (Z.to_nat layer_index < List.length layers)%nat)
    by (apply nth_error_Some; congruence).
  destruct layers as [|l0 layers']; [simpl in Hlt; lia|].
  cbn [PyStr.nonempty negb].
  destruct (Z.geb_spec layer_index (Z.of_nat (List.length (l0 :: layers')))); [lia|].
  unfold py_index.
  destruct (Z.leb_spec 0 layer_index); [|lia].
  now rewrite Hn.
Qed.

(** X21. With both dimensions given and positive,
    [convert_layer_to_names_with_dims] returns exactly [rows] rows of
    exactly [cols] names.  The cell in row [i], column [j] names the key
    number [i * cols + j] of the layer; cells past the last key read
    EMPTY, and keys past [rows * cols] are not shown. *)
Theorem with_dims_explicit_grid (layers : list (list Z))
    (action_map : list (string * string)) (layer_index rows cols : Z)
    (layer_codes : list Z) :
  0 <= layer_index ->
  nth_error layers (Z.to_nat layer_index) = Some layer_codes ->
  0 < rows -> 0 < cols ->
  exists grid,
    convert_layer_to_names_with_dims (Some layers) action_map layer_index
      (Some rows) (Some cols) = Ok grid
    /\ List.length grid = Z.to_nat rows
    /\ (forall i, (i < Z.to_nat rows)%nat ->
                  List.length (nth i grid []) = Z.to_nat cols)
    /\ (forall i j, (i < Z.to_nat rows)%nat -> (j < Z.to_nat cols)%nat ->
                    nth j (nth i grid []) "EMPTY"
                    = action_name action_map
                        (nth (i * Z.to_nat cols + j) layer_codes 0)).
Proof.
  intros Hi Hn Hr Hc. unfold convert_layer_to_names_with_dims.
  rewrite (select_layer_at _ _ _ Hi Hn).
  assert (Hd : resolve_dims (Z.of_nat (List.length layer_codes)) (Some rows) (Some cols)
               = (rows, cols)).
  { unfold resolve_dims, given, dim.
    destruct (Z.eqb_spec rows 0); [lia|]. destruct (Z.eqb_spec cols 0); [lia|].
    reflexivity. }
  rewrite Hd. eexists. split; [reflexivity|].
  apply padded_grid. lia.
Qed.

Lemma with_dims_explicit_grid_witness :
  exists grid,
    convert_layer_to_names_with_dims (Some [[1; 2; 3; 4; 5]]) [("2", "B")] 0
      (Some 2) (Some 3) = Ok grid
    /\ List.length grid = 2%nat.
Proof.
  destruct (with_dims_explicit_grid [[1; 2; 3; 4; 5]] [("2", "B")] 0 2 3 [1; 2; 3; 4; 5])
    as (grid & Hrun & Hlen & _); try lia.
  - reflexivity.
  - exists grid. split; [exact Hrun | exact Hlen].
Defined.

Lemma ceil_div_covers total d :
  0 <= total -> 0 < d ->
  0 <= (if negb (total mod d =? 0) then total / d + 1 else total / d)
  /\ total <= d * (if negb (total mod d =? 0) then total / d + 1 else total / d).
Proof.
  intros Ht Hd.
  pose proof (Z.div_mod total d ltac:(lia)) as Hdm.
  pose proof (Z.mod_pos_bound total d Hd) as Hm.
  pose proof (Z.div_pos total d Ht Hd) as Hq.
  destruct (Z.eqb_spec (total mod d) 0) as [E|E]; cbn [negb]; nia.
Qed.

Lemma resolve_dims_covers total rows cols r c :
  0 <= total ->
  given rows && given cols = false ->
  0 <= dim rows -> 0 <= dim cols ->
  resolve_dims total rows cols = (r, c) ->
  0 <= r /\ 0 <= c /\ total <= r * c.
Proof.
  intros Ht Hboth Hr Hc. unfold resolve_dims. rewrite Hboth.
  destruct (given rows) eqn:Gr.
  - assert (0 < dim rows).
    { unfold given, dim in *. destruct rows as [z|]; [|discriminate].
      apply negb_true_iff, Z.eqb_neq in Gr. lia. }
    intros [= <- <-].
    destruct (ceil_div_covers total (dim rows) Ht ltac:(lia)) as [H1 H2]. lia.
  - destruct (given cols) eqn:Gc.
    + assert (0 < dim cols).
      { unfold given, dim in *. destruct cols as [z|]; [|discriminate].
        apply negb_true_iff, Z.eqb_neq in Gc. lia. }
      intros [= <- <-].
      destruct (ceil_div_covers total (dim cols) Ht ltac:(lia)) as [H1 H2]. lia.
    + destruct (find _ possible_dims) as [[tr tc]|] eqn:Ef.
      * apply find_some in Ef as [Hin Hmatch]. cbn [fst snd] in Hmatch.
        apply Z.eqb_eq in Hmatch. intros [= <- <-].
        unfold possible_dims in Hin. simpl in Hin.
        repeat destruct Hin as [[= <- <-] | Hin]; try contradiction; lia.
      * intros [= <- <-].
        destruct (ceil_div_covers total 6 Ht ltac:(lia)) as [H1 H2].
        destruct (Z.eqb_spec (total mod 6) 0); cbn [negb] in *; lia.
Qed.

(** X22. When [convert_layer_to_names_with_dims] works out a dimension
    itself (one given and positive, or none given), the grid it returns is
    a full rectangle with a cell for every key of the layer: no key is
    dropped, and the cells past the last key read EMPTY. *)
Theorem with_dims_derived_grid_covers (layers : list (list Z))
    (action_map : list (string * string)) (layer_index : Z) (rows cols : option Z)
    (layer_codes : list Z) :
  0 <= layer_index ->
  nth_error layers (Z.to_nat layer_index) = Some layer_codes ->
  given rows && given cols = false -> 0 <= dim rows -> 0 <= dim cols ->
  exists grid r c,
    convert_layer_to_names_with_dims (Some layers) action_map layer_index rows cols
    = Ok grid
    /\ (List.length layer_codes <= r * c)%nat
    /\ List.length grid = r
    /\ (forall i, (i < r)%nat -> List.length (nth i grid []) = c)
    /\ (forall i j, (i < r)%nat -> (j < c)%nat ->
                    nth j (nth i grid []) "EMPTY"
                    = action_name action_map (nth (i * c + j) layer_codes 0)).
Proof.
  intros Hi Hn Hboth Hr Hc. unfold convert_layer_to_names_with_dims.
  rewrite (select_layer_at _ _ _ Hi Hn).
  destruct (resolve_dims (Z.of_nat (List.length layer_codes)) rows cols) as [r c] eqn:Ed.
  destruct (resolve_dims_covers _ _ _ _ _ (Nat2Z.is_nonneg _) Hboth Hr Hc Ed)
    as (H0r & H0c & Hcov).
  eexists. exists (Z.to_nat r), (Z.to_nat c). split; [reflexivity|].
  split; [|apply padded_grid; exact H0c].
  apply Nat2Z.inj_le. rewrite Nat2Z.inj_mul, !Z2Nat.id by lia. exact Hcov.
Qed.

Lemma with_dims_derived_grid_covers_witness :
  exists grid r c,
    convert_layer_to_names_with_dims (Some [[1; 2; 3; 4; 5; 6; 7]]) [] 0 None (Some 3)
    = Ok grid
    /\ (7 <= r * c)%nat /\ List.length grid = r.
Proof.
  destruct (with_dims_derived_grid_covers [[1; 2; 3; 4; 5; 6; 7]] [] 0 None (Some 3)
              [1; 2; 3; 4; 5; 6; 7])
    as (grid & r & c & Hrun & Hcov & Hlen & _); try (simpl; lia); try reflexivity.
  exists grid, r, c. repeat split; assumption.
Defined.


Lemma detect_rows_spec total :
  In (detect_rows total) [4; 5; 6; 7]
  /\ ((total mod 4 = 0 \/ total mod 5 = 0 \/ total mod 6 = 0 \/ total mod 7 = 0) ->
      total mod detect_rows total = 0).
Proof.
  unfold detect_rows.
  destruct (Z.eqb_spec (total mod 6) 0) as [E6|E6]; cbn [negb].
  - split; [simpl; auto | intros _; exact E6].
  - destruct (find _ [4; 5; 6; 7]) as [r|] eqn:Ef.
    + apply find_some in Ef as [Hin Hr]. apply Z.eqb_eq in Hr.
      split; [exact Hin | intros _; exact Hr].
    + split; [simpl; auto|].
      intros Hdiv.
      assert (Hnone := find_none _ _ Ef). cbn beta in Hnone.
      destruct Hdiv as [H | [H | [H | H]]];
        [ specialize (Hnone 4) | specialize (Hnone 5)
        | specialize (Hnone 6) | specialize (Hnone 7) ];
        rewrite H in Hnone; specialize (Hnone ltac:(simpl; auto)); discriminate.
Qed.

(** X23. [convert_layer_to_names] settles on 4, 5, 6 or 7 rows and
    [total // rows] columns and returns a full rectangle: the cell in row
    [i], column [j] names the key number [i * cols + j].  The last
    [total mod rows] keys of the layer are left out; none is left out when
    the number of keys is a multiple of 4, 5, 6 or 7. *)
Theorem convert_layer_to_names_grid (layers : list (list Z))
    (action_map : list (string * string)) (layer_index : Z) (layer_codes : list Z) :
  0 <= layer_index ->
  nth_error layers (Z.to_nat layer_index) = Some layer_codes ->
  exists grid rows cols,
    convert_layer_to_names (Some layers) action_map layer_index = Ok grid
    /\ In rows [4; 5; 6; 7]%nat
    /\ List.length grid = rows
    /\ (forall i, (i < rows)%nat -> List.length (nth i grid []) = cols)
    /\ (forall i j, (i < rows)%nat -> (j < cols)%nat ->
                    nth j (nth i grid []) "EMPTY"
                    = action_name action_map (nth (i * cols + j) layer_codes 0))
    /\ (rows * cols = List.length layer_codes - List.length layer_codes mod rows)%nat
    /\ ((exists k, In k [4; 5; 6; 7]%nat /\ (List.length layer_codes mod k = 0)%nat) ->
        (rows * cols = List.length layer_codes)%nat).
Proof.
  intros Hi Hn. unfold convert_layer_to_names.
  rewrite (select_layer_at _ _ _ Hi Hn).
  set (total := Z.of_nat (List.length layer_codes)).
  destruct (detect_rows_spec total) as [Hrows Hdiv].
  set (rows := detect_rows total) in *.
  set (cols := total / rows).
  assert (Hr : 4 <= rows <= 7) by (simpl in Hrows; lia).
  assert (Hc : 0 <= cols) by (apply Z.div_pos; lia).
  pose proof (Z.div_mod total rows ltac:(lia)) as Hdm.
  pose proof (Z.mod_pos_bound total rows ltac:(lia)) as Hm.
  fold cols in Hdm.
  eexists. exists (Z.to_nat rows), (Z.to_nat cols).
  split; [reflexivity|].
  assert (Hrow : forall i, (i < Z.to_nat rows)%nat ->
             py_slice layer_codes (Z.of_nat i * cols) (Z.of_nat i * cols + cols)
             = firstn (Z.to_nat cols) (skipn (i * Z.to_nat cols) layer_codes)).
  { intros i Hlt.
    rewrite (proj1 (py_slice_window layer_codes (Z.of_nat i * cols) cols
                      ltac:(nia) Hc)).
    now rewrite Z2Nat.inj_mul, Nat2Z.id by lia. }
  assert (Hfit : forall i, (i < Z.to_nat rows)%nat ->
             (i * Z.to_nat cols + Z.to_nat cols <= List.length layer_codes)%nat).
  { intros i Hlt. apply Nat2Z.inj_le.
    rewrite Nat2Z.inj_add, Nat2Z.inj_mul, !Z2Nat.id by lia. fold total. nia. }
  split; [|split; [|split; [|split; [|split]]]].
  - simpl in Hrows.
    destruct Hrows as [<- | [<- | [<- | [<- | []]]]]; simpl; auto.
  - now rewrite length_map, length_range.
  - intros i Hlt. rewrite nth_map_range by exact Hlt.
    unfold row_names. rewrite length_map, (Hrow i Hlt), length_firstn, length_skipn.
    specialize (Hfit i Hlt). lia.
  - intros i j Hlt Hj. rewrite nth_map_range by exact Hlt.
    unfold row_names. change "EMPTY" with (action_name action_map 0).
    rewrite map_nth, (Hrow i Hlt), nth_firstn.
    destruct (Nat.ltb_spec j (Z.to_nat cols)); [|lia].
    now rewrite nth_skipn.
  - apply Nat2Z.inj.
    rewrite Nat2Z.inj_mul, Nat2Z.inj_sub, Nat2Z.inj_mod, !Z2Nat.id by
      (try lia; apply Nat.Div0.mod_le).
    fold total. lia.
  - intros (k & Hk & Hmod).
    assert (Hz : total mod rows = 0).
    { apply Hdiv. apply (f_equal Z.of_nat) in Hmod.
      rewrite Nat2Z.inj_mod in Hmod. fold total in Hmod.
      simpl in Hk. destruct Hk as [<- | [<- | [<- | [<- | []]]]]; auto. }
    apply Nat2Z.inj. rewrite Nat2Z.inj_mul, !Z2Nat.id by lia. fold total. lia.
Qed.

Lemma convert_layer_to_names_grid_witness :
  exists grid rows cols,
    convert_layer_to_names (Some [[1; 2; 3; 4; 5; 6; 7; 8; 9; 10; 11]]) [] 0 = Ok grid
    /\ In rows [4; 5; 6; 7]%nat
    /\ List.length grid = rows
    /\ (rows * cols = 11 - 11 mod rows)%nat.
Proof.
  destruct (convert_layer_to_names_grid [[1; 2; 3; 4; 5; 6; 7; 8; 9; 10; 11]] [] 0
              [1; 2; 3; 4; 5; 6; 7; 8; 9; 10; 11])
    as (grid & rows & cols & Hrun & Hrows & Hlen & _ & _ & Hkeys & _);
    [lia | reflexivity |].
  exists grid, rows, cols. repeat split; assumption.
Defined.

(** X24. Which layer the converters take.  A missing or empty layout, or
    an index at or past the number of layers, gives the empty grid.  A
    negative index counts from the last layer, as Python's indexing does;
    one below minus the number of layers raises [IndexError]. *)
Theorem layer_selection (layers : list (list Z)) (action_map : list (string * string))
    (layer_index : Z) (rows cols : option Z) :
  convert_layer_to_names None action_map layer_index = Ok []
  /\ convert_layer_to_names (Some []) action_map layer_index = Ok []
  /\ convert_layer_to_names_with_dims None action_map layer_index rows cols = Ok []
  /\ convert_layer_to_names_with_dims (Some []) action_map layer_index rows cols = Ok []
  /\ (Z.of_nat (List.length layers) <= layer_index ->
      convert_layer_to_names (Some layers) action_map layer_index = Ok []
      /\ convert_layer_to_names_with_dims (Some layers) action_map layer_index rows cols
         = Ok [])
  /\ (- Z.of_nat (List.length layers) <= layer_index < 0 ->
      convert_layer_to_names (Some layers) action_map layer_index
      = convert_layer_to_names (Some layers) action_map
          (layer_index + Z.of_nat (List.length layers))
      /\ convert_layer_to_names_with_dims (Some layers) action_map layer_index rows cols
         = convert_layer_to_names_with_dims (Some layers) action_map
             (layer_index + Z.of_nat (List.length layers)) rows cols)
  /\ (layers <> [] -> layer_index < - Z.of_nat (List.length layers) ->
      convert_layer_to_names (Some layers) action_map layer_index = Raised IndexError
      /\ convert_layer_to_names_with_dims (Some layers) action_map layer_index rows cols
         = Raised IndexError).
Proof.
  repeat split; try reflexivity.
  - unfold convert_layer_to_names, select_layer.
    destruct layers; [reflexivity|]. cbn [PyStr.nonempty negb].
    destruct (Z.geb_spec layer_index (Z.of_nat (List.length (l :: layers)))); [reflexivity | lia].
  - unfold convert_layer_to_names_with_dims, select_layer.
    destruct layers; [reflexivity|]. cbn [PyStr.nonempty negb].
    destruct (Z.geb_spec layer_index (Z.of_nat (List.length (l :: layers)))); [reflexivity | lia].
  - assert (Hs : select_layer (Some layers) layer_index
                 = select_layer (Some layers) (layer_index + Z.of_nat (List.length layers))).
    { unfold select_layer. destruct layers as [|l layers']; [reflexivity|].
      cbn [PyStr.nonempty negb].
      set (n := Z.of_nat (List.length (l :: layers'))) in *.
      destruct (Z.geb_spec layer_index n); [lia|].
      destruct (Z.geb_spec (layer_index + n) n); [lia|].
      unfold py_index. fold n.
      destruct (Z.leb_spec 0 layer_index); [lia|].
      destruct (Z.leb_spec 0 (n + layer_index)); [|lia].
      destruct (Z.leb_spec 0 (layer_index + n)); [|lia].
      now rewrite (Z.add_comm n layer_index). }
    unfold convert_layer_to_names. now rewrite Hs.
  - assert (Hs : select_layer (Some layers) layer_index
                 = select_layer (Some layers) (layer_index + Z.of_nat (List.length layers))).
    { unfold select_layer. destruct layers as [|l layers']; [reflexivity|].
      cbn [PyStr.nonempty negb].
      set (n := Z.of_nat (List.length (l :: layers'))) in *.
      destruct (Z.geb_spec layer_index n); [lia|].
      destruct (Z.geb_spec (layer_index + n) n); [lia|].
      unfold py_index. fold n.
      destruct (Z.leb_spec 0 layer_index); [lia|].
      destruct (Z.leb_spec 0 (n + layer_index)); [|lia].
      destruct (Z.leb_spec 0 (layer_index + n)); [|lia].
      now rewrite (Z.add_comm n layer_index). }
    unfold convert_layer_to_names_with_dims. now rewrite Hs.
  - unfold convert_layer_to_names, select_layer.
    destruct layers as [|l layers']; [congruence|]. cbn [PyStr.nonempty negb].
    set (n := Z.of_nat (List.length (l :: layers'))) in *.
    destruct (Z.geb_spec layer_index n); [lia|].
    unfold py_index. fold n.
    destruct (Z.leb_spec 0 layer_index); [lia|].
    destruct (Z.leb_spec 0 (n + layer_index)); [lia | reflexivity].
  - unfold convert_layer_to_names_with_dims, select_layer.
    destruct layers as [|l layers']; [congruence|]. cbn [PyStr.nonempty negb].
    set (n := Z.of_nat (List.length (l :: layers'))) in *.
    destruct (Z.geb_spec layer_index n); [lia|].
    unfold py_index. fold n.
    destruct (Z.leb_spec 0 layer_index); [lia|].
    destruct (Z.leb_spec 0 (n + layer_index)); [lia | reflexivity].
Qed.

Lemma layer_selection_witness :
  convert_layer_to_names (Some [[1; 2; 3; 4]; [5; 6; 7; 8]]) [] (-1)
  = convert_layer_to_names (Some [[1; 2; 3; 4]; [5; 6; 7; 8]]) [] 1
  /\ convert_layer_to_names (Some [[1; 2; 3; 4]; [5; 6; 7; 8]]) [] (-3)
     = Raised IndexError.
Proof.
  split.
  - apply (proj1 (proj2 (proj2 (proj2 (proj2 (proj2
             (layer_selection [[1; 2; 3; 4]; [5; 6; 7; 8]] [] (-1) None None)))))));
      simpl; lia.
  - apply (proj2 (proj2 (proj2 (proj2 (proj2 (proj2
             (layer_selection [[1; 2; 3; 4]; [5; 6; 7; 8]] [] (-3) None None)))))));
      [discriminate | simpl; lia].
Defined.

(** ** What is printed *)

Lemma length_append a b :
  String.length (a ++ b) = (String.length a + String.length b)%nat.
Proof. induction a as [|c a IH]; simpl; congruence. Qed.

Lemma length_of_chars l : String.length (string_of_list_ascii l) = List.length l.
Proof. induction l as [|c l IH]; simpl; congruence. Qed.

Lemma display_name_length name : String.length (display_name name) = 12%nat.
Proof.
  unfold display_name, ljust.
  destruct (Nat.ltb_spec 12 (String.length name)) as [Hlong|Hshort].
  - rewrite length_append, substring_length by (simpl; lia). reflexivity.
  - rewrite length_append, length_of_chars, repeat_length. lia.
Qed.

Lemma cells_length row :
  String.length (String.concat "" (map (fun name => display_name name ++ " ") row))
  = (13 * List.length row)%nat.
Proof.
  induction row as [|name row IH]; [reflexivity|].
  cbn [map List.length].
  assert (Hcell : String.length (display_name name ++ " ") = 13%nat)
    by (rewrite length_append, display_name_length; reflexivity).
  destruct row as [|name' row'].
  - cbn [map concat]. rewrite Hcell. reflexivity.
  - change (concat "" ((display_name name ++ " ")
                         :: map (fun n => display_name n ++ " ") (name' :: row')))
      with ((display_name name ++ " ")
              ++ concat "" (map (fun n => display_name n ++ " ") (name' :: row'))).
    rewrite length_append, Hcell, IH. cbn [List.length]. lia.
Qed.

(** X25. [print_layer_grid] prints every name in a cell of exactly twelve
    characters, a long name cut to ten and closed by two dots, so the
    columns line up: a printed row is its label followed by thirteen
    characters for each of its names. *)
Theorem printed_cells_line_up (row_idx : Z) (row : list string) (name : string) :
  String.length (display_name name) = 12%nat
  /\ String.length (row_line row_idx row)
     = (6 + String.length (PyInt.str row_idx) + 13 * List.length row)%nat
  /\ ((12 < String.length name)%nat ->
      display_name name = String.substring 0 10 name ++ "..").
Proof.
  split; [apply display_name_length|]. split.
  - unfold row_line. rewrite !length_append, cells_length. simpl. lia.
  - intros H. unfold display_name.
    destruct (Nat.ltb_spec 12 (String.length name)); [reflexivity | lia].
Qed.

Lemma printed_cells_line_up_witness :
  display_name "ABCDEFGHIJKLMNOP" = "ABCDEFGHIJ..".
Proof.
  apply (proj2 (proj2 (printed_cells_line_up 0 [] "ABCDEFGHIJKLMNOP"))).
  simpl; lia.
Defined.

End LayoutGrid.
